(** * KubernetesStack: compiling stack entries to Terraform module descriptors

    A shallow embedding of
    [platinfra_cli/stack_processor/stack_processor/kubernetes_stack.py].

    - YAML / JSON data is the type [pyval]; mappings are association lists
      in insertion order, as Python dictionaries are.
    - Exceptions are values of [exn]; a computation that may raise returns
      a [result].
    - The two pieces of mutable state a run touches, the accumulator
      [self.output["output"]] and the files written below [TF_PATH], are
      threaded explicitly through the monad [M]. *)

From Stdlib Require Import List String Ascii ZArith Bool Lia.
From Stdlib Require Import SpecFloat DecimalString.
Import ListNotations.
Set Warnings "-register-all".
Local Open Scope list_scope.
Local Open Scope string_scope.

(** ** Python values *)

(** The objects [yaml] hands to the program and [json.dump] accepts.
    Mapping keys are strings. *)
Inductive pyval : Type :=
| PNone
| PBool (b : bool)
| PInt (z : Z)
| PFloat (f : spec_float)
| PStr (s : string)
| PList (l : list pyval)
| PDict (d : list (string * pyval)).

Definition dict : Type := list (string * pyval).

(** Truth value testing, as [if v:] and [not v] perform it. *)
Definition truthy (v : pyval) : bool :=
  match v with
  | PNone => false
  | PBool b => b
  | PInt z => negb (Z.eqb z 0)
  | PFloat (S754_zero _) => false
  | PFloat _ => true
  | PStr s => negb (String.eqb s "")
  | PList [] => false
  | PList (_ :: _) => true
  | PDict [] => false
  | PDict (_ :: _) => true
  end.

(** [v != s] for a string literal [s]: a str differs from every object of
    another type. *)
Definition ne_str (v : pyval) (s : string) : bool :=
  match v with
  | PStr t => negb (String.eqb t s)
  | _ => true
  end.

(** ** Dictionaries *)

Definition keys (d : dict) : list string := map fst d.

(** [d.get(k)] *)
Fixpoint dict_lookup (k : string) (d : dict) : option pyval :=
  match d with
  | [] => None
  | (k', v) :: rest => if String.eqb k k' then Some v else dict_lookup k rest
  end.

(** [d[k] = v]: an existing key keeps its position, a new one goes last. *)
Fixpoint dict_set (k : string) (v : pyval) (d : dict) : dict :=
  match d with
  | [] => [(k, v)]
  | (k', v') :: rest =>
      if String.eqb k k' then (k', v) :: rest else (k', v') :: dict_set k v rest
  end.

(** [d.update(e)]: the items of [e] are stored one after the other. *)
Definition dict_update (d e : dict) : dict :=
  fold_left (fun acc kv => dict_set (fst kv) (snd kv) acc) e d.

(** [k in l] for a list of strings. *)
Definition str_in (k : string) (l : list string) : bool :=
  existsb (String.eqb k) l.

(** ** Exceptions and results *)

Inductive exn : Type :=
| KeyError (arg : string)
| TypeError (msg : string).

Inductive result (A : Type) : Type :=
| Ok (a : A)
| Raise (e : exn).
Arguments Ok {A} a.
Arguments Raise {A} e.

Definition rbind {A B : Type} (r : result A) (k : A -> result B) : result B :=
  match r with
  | Ok a => k a
  | Raise e => Raise e
  end.

Notation "'let?' x ':=' c 'in' k" := (rbind c (fun x => k))
  (at level 10, x pattern, c at level 100, k at level 200).

(** [d[k]] on a mapping of which only the binding for [k] matters. *)
Definition getitem {A : Type} (k : string) (field : option A) : result A :=
  match field with
  | Some a => Ok a
  | None => Raise (KeyError k)
  end.

(** ** The state of a run *)

(** [output] is the list under [self.output["output"]]; [files] records
    every [json.dump] in the order it happened, as the path that was opened
    for writing and the object that was dumped. *)
Record state : Type := mkState {
  output : list pyval;
  files : list (string * pyval)
}.

Definition M (A : Type) : Type := state -> result A * state.

Definition ret {A : Type} (a : A) : M A := fun s => (Ok a, s).

Definition bind {A B : Type} (m : M A) (k : A -> M B) : M B :=
  fun s =>
    match m s with
    | (Ok a, s') => k a s'
    | (Raise e, s') => (Raise e, s')
    end.

Definition lift {A : Type} (r : result A) : M A := fun s => (r, s).

Notation "x <- c ;; k" := (bind c (fun x => k))
  (at level 61, c at next level, right associativity).
Notation "c ;;; k" := (bind c (fun _ => k))
  (at level 61, right associativity).

(** [self.output["output"].append(v)] *)
Definition append_output (v : pyval) : M unit :=
  fun s => (Ok tt, mkState (output s ++ [v])%list (files s)).

(** [with open(path, "w") as f: json.dump(obj, f)] *)
Definition write_json (path : string) (obj : pyval) : M unit :=
  fun s => (Ok tt, mkState (output s) (files s ++ [(path, obj)])%list).

Definition get_output : M (list pyval) := fun s => (Ok (output s), s).

(** ** Configuration records *)

(** One element of [application_config["inputs"]].  [default] and
    [value] are keys an entry may lack. *)
Module Input.
Record t : Type := mk {
  name : string;
  user_facing : pyval;
  default : option pyval;
  value : option pyval
}.
End Input.

(** One element of [application_config["outputs"]]. *)
Module Output.
Record t : Type := mk {
  name : string;
  export : pyval
}.
End Output.

(** What [_read_config_file] returns when it finds a configuration; both
    keys are optional. *)
Module Config.
Record t : Type := mk {
  inputs : option (list Input.t);
  outputs : option (list Output.t)
}.
End Config.

(** One element [module] of [self.stacks]: a mapping whose first key is the
    stack type, bound to a mapping with the optional keys [name] and
    [params]. *)
Module Stack.
Record t : Type := mk {
  stack_type : string;
  name : option string;
  params : option dict
}.
End Stack.

(** One element of [self.stack_config["environments"]]. *)
Module Env.
Record t : Type := mk {
  name : string;
  variables : option dict
}.
End Env.

Record StackConfig : Type := mkStackConfig {
  environments : option (list Env.t)
}.

(** Modelled from the spec: the provider discriminator, "enumerated: AWS,
    GCP, ..." ([platinfra_cli.enums.provider] is not among the sources).
    It is an enumeration whose members are equal to themselves only. *)
Inductive Provider : Type := AWS | GCP.

Definition Provider_eqb (p q : Provider) : bool :=
  match p, q with
  | AWS, AWS => true
  | GCP, GCP => true
  | _, _ => false
  end.

(** What [self.provider] may hold: the annotation asks for a member of
    [Provider] but nothing enforces it, and [get_eks_module_refs] compares
    the attribute with a str. *)
Inductive provider_obj : Type :=
| Member (p : Provider)
| Name (s : string).

(** [a == b]: objects of different classes are never equal. *)
Definition provider_obj_eqb (a b : provider_obj) : bool :=
  match a, b with
  | Member p, Member q => Provider_eqb p q
  | Name s, Name t => String.eqb s t
  | _, _ => false
  end.

(** The attributes of a [KubernetesStack] instance the methods read. *)
Record KubernetesStack : Type := mkKubernetesStack {
  state_file_name : string;
  region : string;
  account_id : string;
  provider : provider_obj;
  stacks : list Stack.t;
  stack_config : StackConfig
}.

(** [str(v)], which is what an f-string substitutes.  The text Python
    prints for floats and containers is left to [repr_other]. *)
Definition py_str (repr_other : pyval -> string) (v : pyval) : string :=
  match v with
  | PStr s => s
  | PNone => "None"
  | PBool true => "True"
  | PBool false => "False"
  | PInt z => NilZero.string_of_int (Z.to_int z)
  | _ => repr_other v
  end.

(** One element of [self.stack_config["input_variables"]]; [default] is a
    key it may lack. *)
Module InputVariable.
Record t : Type := mk {
  name : string;
  default : option pyval
}.
End InputVariable.

(** What [prepare_input], [_user_input] and [_get_k8s_module_name] read
    beside the attributes above: the attribute [is_stack_component], and
    the keys [input_variables] and [modules] of [self.stack_config], which
    it may lack.  A module is a mapping. *)
Record Component : Type := mkComponent {
  base : KubernetesStack;
  is_stack_component : bool;
  input_variables : option (list InputVariable.t);
  modules : option (list dict)
}.

(** ** A database stack, for the worked examples *)

Module Example.

Local Open Scope list_scope.

Definition tf_path : string := ".platinfra".

(** The keys that ask for database subnets in these examples. *)
Definition subnet_keys : list string := ["remote_tracking"].

(** Floats and containers do not occur as [value] below. *)
Definition repr (v : pyval) : string := "".

Definition storage_gb : Input.t :=
  Input.mk "storage_gb" (PBool true) None None.
Definition remote_tracking : Input.t :=
  Input.mk "remote_tracking" (PBool true) (Some (PBool false)) None.
Definition vpc_id : Input.t :=
  Input.mk "vpc_id" (PBool false) (Some (PStr "None"))
    (Some (PStr "module.vpc.vpc_id")).
Definition engine : Input.t :=
  Input.mk "engine" (PBool false) (Some (PStr "postgres")) None.

(** The configuration of the application [pg] of the stack type
    [database]. *)
Definition pg : Config.t :=
  Config.mk
    (Some [storage_gb; remote_tracking; vpc_id; engine])
    (Some [Output.mk "endpoint" (PBool true);
           Output.mk "password" (PBool false)]).

(** The configuration of the application [redis] of the stack type
    [cache]: it declares no inputs. *)
Definition redis : Config.t := Config.mk (Some []) None.

(** Nothing else has a configuration. *)
Definition read (stack_type name : string) : option Config.t :=
  if String.eqb stack_type "database" && String.eqb name "pg" then Some pg
  else if String.eqb stack_type "cache" && String.eqb name "redis"
       then Some redis
       else None.

Definition is_dev (name : string) : bool := String.eqb name "dev".

Definition database (params : option dict) : Stack.t :=
  Stack.mk "database" (Some "pg") params.

Definition instance (provider : provider_obj) (stacks : list Stack.t)
  : KubernetesStack :=
  mkKubernetesStack "platinfra-state" "eu-central-1" "123456789012"
    provider stacks (mkStackConfig None).

(** An AWS stack whose database asks for remote tracking. *)
Definition tracked : KubernetesStack :=
  instance (Member AWS)
    [database (Some [("storage_gb", PInt 50);
                     ("remote_tracking", PBool true)])].

(** An AWS stack whose cache sets a subnet-triggering key that its
    configuration does not declare. *)
Definition undeclared : KubernetesStack :=
  instance (Member AWS)
    [Stack.mk "cache" (Some "redis") (Some [("remote_tracking", PBool true)])].

(** An entry for which nothing is configured, with a param. *)
Definition unconfigured : Stack.t :=
  Stack.mk "eks" (Some "k8s") (Some [("version", PStr "1.29")]).

(** A stack configuration with two environments that both match. *)
Definition two_dev : KubernetesStack :=
  mkKubernetesStack "platinfra-state" "eu-central-1" "123456789012"
    (Member AWS) []
    (mkStackConfig
       (Some [Env.mk "prod" (Some [("size", PStr "large")]);
              Env.mk "dev" (Some [("size", PStr "small");
                                  ("replicas", PInt 1)]);
              Env.mk "dev" (Some [("size", PStr "medium")])])).

(** Two databases in one stack, after a cache. *)
Definition replica : Stack.t := Stack.mk "database" (Some "replica") None.

Definition crowded : KubernetesStack :=
  instance (Member AWS)
    [database (Some [("storage_gb", PInt 50)]);
     Stack.mk "cache" (Some "redis") None;
     replica].

(** An application whose internal input has neither default nor value. *)
Definition broken : Config.t :=
  Config.mk (Some [storage_gb; Input.mk "subnet" (PBool false) None None])
    (Some [Output.mk "arn" (PBool true)]).

(** An application that declares outputs only. *)
Definition exporter : Config.t :=
  Config.mk None (Some [Output.mk "arn" (PBool true)]).

Definition read_more (stack_type name : string) : option Config.t :=
  if String.eqb name "broken" then Some broken
  else if String.eqb name "exporter" then Some exporter
  else read stack_type name.

(** An application that declares the internal input [vpc_id] twice, the
    second time with a default of its own. *)
Definition twice : Config.t :=
  Config.mk
    (Some [vpc_id;
           Input.mk "vpc_id" (PBool false) (Some (PStr "10.0.0.0/16")) None])
    None.

Definition read_twice (stack_type name : string) : option Config.t :=
  if String.eqb name "twice" then Some twice else read stack_type name.

(** A component with one declared variable and the environments of
    [two_dev]; its modules hold two clusters. *)
Definition component : Component :=
  mkComponent two_dev true
    (Some [InputVariable.mk "size" None;
           InputVariable.mk "zone" (Some (PStr "a"))])
    (Some [[("type", PStr "rds"); ("cluster_name", PStr "db")];
           [("type", PStr "eks"); ("cluster_name", PStr "blue")];
           [("type", PStr "eks"); ("cluster_name", PStr "green")]]).

End Example.

Set Default Proof Using "Type".

Section KubernetesStack.

(** What the module takes from the rest of the package. *)

(** [platinfra_cli.utils.constants.TF_PATH] *)
Variable TF_PATH : string.

(** Modelled from the spec: [CREATE_VPC_DB_SUBNET], the fixed
    "subnet-triggering" key set of [platinfra_cli.utils.constants]. *)
Variable CREATE_VPC_DB_SUBNET : list string.

(** [AbstractStack._read_config_file(stack_type, application_name)];
    [None] is Python's [None]. *)
Variable _read_config_file : string -> string -> option Config.t.

(** [AbstractStack._is_env_match(name)] *)
Variable _is_env_match : string -> bool.

(** Python's text for floats, lists and dicts, see [py_str]. *)
Variable repr_other : pyval -> string.

(** What [member == s] gives for a member of [Provider] and a str [s].
    [platinfra_cli.enums.provider] is not among the sources: a plain
    enumeration answers [False] always, one that mixes str in compares the
    value of the member. *)
Variable Provider_eq_str : Provider -> string -> bool.

(** *** [process_stack_modules], lines 77-88 *)

(** The conditional expression bound to [input_value]. *)
Definition input_value (input : Input.t) : result pyval :=
  let? default := getitem "default" (Input.default input) in
  if ne_str default "None" then Ok default
  else
    let? value := getitem "value" (Input.value input) in
    Ok (PStr ("${ " ++ py_str repr_other value ++ " }")).

(** The loop over [application_config["inputs"]]; [inputs] is the local
    dictionary and [block] is [json_module["module"][name]], which is
    updated in every iteration. *)
Fixpoint inputs_loop (ins : list Input.t) (inputs block : dict)
  : result (dict * dict) :=
  match ins with
  | [] => Ok (inputs, block)
  | input :: rest =>
      if negb (truthy (Input.user_facing input)) then
        let? input_value := input_value input in
        let inputs' := dict_update inputs [(Input.name input, input_value)] in
        inputs_loop rest inputs' (dict_update block inputs')
      else
        inputs_loop rest inputs (dict_update block inputs)
  end.

(** *** lines 90-97 *)

Definition output_reference (name : string) (output : Output.t) : pyval :=
  let output_val := "${ " ++ ("module." ++ name ++ "." ++ Output.name output) ++ " }" in
  PDict [(Output.name output, PDict [("value", PStr output_val)])].

Fixpoint outputs_loop (name : string) (outs : list Output.t) : M unit :=
  match outs with
  | [] => ret tt
  | output :: rest =>
      (if truthy (Output.export output)
       then append_output (output_reference name output)
       else ret tt) ;;;
      outputs_loop name rest
  end.

(** *** lines 102-120 *)

(** [application_config["inputs"]] as line 106 evaluates it, with no
    test that [application_config] is a mapping or has the key. *)
Definition config_inputs (application_config : option Config.t)
  : result (list Input.t) :=
  match application_config with
  | None => Raise (TypeError "'NoneType' object is not subscriptable")
  | Some cfg => getitem "inputs" (Config.inputs cfg)
  end.

(** The inner loop, for one item [(key, value)] of the params. *)
Fixpoint match_inputs (key : string) (value : pyval) (ins : list Input.t)
    (params : dict) (create_vpc_database_subnets : bool)
  : result (dict * bool) :=
  match ins with
  | [] => Ok (params, create_vpc_database_subnets)
  | input :: rest =>
      if String.eqb key (Input.name input) then
        if truthy (Input.user_facing input) then
          match_inputs key value rest
            (dict_update params [(key, value)])
            (if str_in key CREATE_VPC_DB_SUBNET && truthy value
             then true else create_vpc_database_subnets)
        else Raise (KeyError (key ++ " is not a user facing parameter"))
      else match_inputs key value rest params create_vpc_database_subnets
  end.

(** The outer loop over [module[stack_type]["params"].items()]. *)
Fixpoint params_loop (application_config : option Config.t) (items : dict)
    (params : dict) (create_vpc_database_subnets : bool)
  : result (dict * bool) :=
  match items with
  | [] => Ok (params, create_vpc_database_subnets)
  | (key, value) :: rest =>
      let? ins := config_inputs application_config in
      let? (params', create') :=
        match_inputs key value ins params create_vpc_database_subnets in
      params_loop application_config rest params' create'
  end.

(** *** The body of the loop over [self.stacks] *)

Definition module_source (stack_type name : string) : string :=
  "../modules/applications/" ++ stack_type ++ "/" ++ name ++ "/tf_module".

Definition stack_path (stack_type : string) : string :=
  "./" ++ TF_PATH ++ "/stack_" ++ stack_type ++ ".tf.json".

(** [json_module] once [block] is what [json_module["module"][name]]
    holds. *)
Definition json_module (name : string) (block : dict) : pyval :=
  PDict [("module", PDict [(name, PDict block)])].

Definition process_module (module : Stack.t)
    (create_vpc_database_subnets : bool) : M bool :=
  let stack_type := Stack.stack_type module in
  name <- lift
    match Stack.name module with
    | Some name => Ok name
    | None =>
        Raise (KeyError ("No application assigned to the stack: " ++ stack_type))
    end ;;
  let block := dict_set "source" (PStr (module_source stack_type name)) [] in
  let application_config := _read_config_file stack_type name in
  block <-
    match application_config with
    | Some cfg =>
        block <-
          match Config.inputs cfg with
          | Some ins =>
              r <- lift (inputs_loop ins [] block) ;; ret (snd r)
          | None => ret block
          end ;;
        match Config.outputs cfg with
        | Some outs => outputs_loop name outs
        | None => ret tt
        end ;;;
        ret block
    | None => ret block
    end ;;
  r <-
    match Stack.params module with
    | Some items =>
        r <- lift (params_loop application_config items []
                     create_vpc_database_subnets) ;;
        ret (dict_update block (fst r), snd r)
    | None => ret (block, create_vpc_database_subnets)
    end ;;
  write_json (stack_path stack_type) (json_module name (fst r)) ;;;
  ret (snd r).

Fixpoint stacks_loop (modules : list Stack.t)
    (create_vpc_database_subnets : bool) : M bool :=
  match modules with
  | [] => ret create_vpc_database_subnets
  | module :: rest =>
      create' <- process_module module create_vpc_database_subnets ;;
      stacks_loop rest create'
  end.

(** *** lines 127-140: the injected vpc module *)

Definition vpc_path : string := "./" ++ TF_PATH ++ "/" ++ "vpc" ++ ".tf.json".

Definition vpc_module (create_vpc_database_subnets : bool) : pyval :=
  json_module "vpc"
    (dict_set "create_database_subnets" (PBool create_vpc_database_subnets)
       (dict_set "source" (PStr ("../modules/cloud/aws/" ++ "vpc")) [])).

Definition process_stack_modules (self : KubernetesStack) : M unit :=
  create_vpc_database_subnets <- stacks_loop (stacks self) false ;;
  if provider_obj_eqb (provider self) (Member AWS) then
    write_json vpc_path (vpc_module create_vpc_database_subnets)
  else if provider_obj_eqb (provider self) (Member GCP) then ret tt
  else ret tt.

(** *** [get_eks_module_refs] *)

(** [self.provider == s] for a str [s]. *)
Definition provider_is (a : provider_obj) (s : string) : bool :=
  match a with
  | Member p => Provider_eq_str p s
  | Name t => String.eqb t s
  end.

Definition get_eks_module_refs (self : KubernetesStack)
    (k8s_module_name : option string) : option dict :=
  let module_source :=
    match k8s_module_name with
    | Some n =>
        if negb (Nat.eqb (String.length n) 0) then "module." ++ n
        else "data.terraform_remote_state.parent.outputs"
    | None => "data.terraform_remote_state.parent.outputs"
    end in
  if provider_is (provider self) "aws" then
    Some [("host", PStr ("${" ++ module_source ++ ".k8s_endpoint}"));
          ("token", PStr "${data.aws_eks_cluster_auth.k8s.token}");
          ("cluster_ca_certificate",
            PStr ("${base64decode(" ++ module_source ++ ".k8s_ca_data)}"))]
  else None.

(** *** [process_stack_outputs] *)

Definition output_path : string := "./" ++ TF_PATH ++ "/output.tf.json".

Definition state_storage_entry (self : KubernetesStack) : pyval :=
  PDict [("state_storage", PDict [("value", PStr (state_file_name self))])].

Definition providers_entry (self : KubernetesStack) : pyval :=
  PDict [("providers",
          PDict [("value",
                  PDict [("aws",
                          PDict [("region", PStr (region self));
                                 ("account_id", PStr (account_id self))])])])].

Definition process_stack_outputs (self : KubernetesStack) : M unit :=
  append_output (state_storage_entry self) ;;;
  append_output (providers_entry self) ;;;
  out <- get_output ;;
  write_json output_path (PDict [("output", PList out)]).

(** *** [generate] *)

Definition process_stack_config (self : KubernetesStack) : M unit := ret tt.
Definition process_stack_inputs (self : KubernetesStack) : M unit := ret tt.

Definition generate (self : KubernetesStack) : M unit :=
  process_stack_config self ;;;
  process_stack_inputs self ;;;
  process_stack_modules self ;;;
  process_stack_outputs self.

(** The state a freshly constructed instance starts from: [__init__]
    sets [self.output = {"output": []}]; [fs] is what was written
    before. *)
Definition fresh (fs : list (string * pyval)) : state := mkState [] fs.

(** *** [_default_config_input] *)

Definition variable_descriptor (k : string) (default : pyval) : pyval :=
  PDict [(k, PList [PDict [("type", PStr "string"); ("default", default)]])].

(** The loop [for k in env["variables"]], which looks every key up
    again. *)
Fixpoint variables_loop (variables : dict) (ks : list string)
    (user_input : list pyval) : result (list pyval) :=
  match ks with
  | [] => Ok user_input
  | k :: rest =>
      let? default := getitem k (dict_lookup k variables) in
      variables_loop variables rest
        (user_input ++ [variable_descriptor k default])%list
  end.

(** The loop over the environments; [break] leaves it at the first
    match. *)
Fixpoint environments_loop (envs : list Env.t) (user_input : list pyval)
  : result (list pyval) :=
  match envs with
  | [] => Ok user_input
  | env :: rest =>
      if _is_env_match (Env.name env) then
        match Env.variables env with
        | Some variables => variables_loop variables (keys variables) user_input
        | None => Ok user_input
        end
      else environments_loop rest user_input
  end.

Definition _default_config_input (self : KubernetesStack)
  : result (list pyval) :=
  let user_input := [] in
  match environments (stack_config self) with
  | Some envs => environments_loop envs user_input
  | None => Ok user_input
  end.

(** ** What the loops compute, in closed form *)

(** [key] is the name of some declared input. *)
Definition names_input (ins : list Input.t) (key : string) : bool :=
  existsb (fun input => String.eqb key (Input.name input)) ins.

(** [key] is the name of some declared input that is user facing. *)
Definition names_user_facing (ins : list Input.t) (key : string) : bool :=
  existsb (fun input => String.eqb key (Input.name input)
                        && truthy (Input.user_facing input)) ins.

(** [key] is the name of some declared input that is not user facing. *)
Definition names_internal (ins : list Input.t) (key : string) : bool :=
  existsb (fun input => String.eqb key (Input.name input)
                        && negb (truthy (Input.user_facing input))) ins.

(** The test of line 116. *)
Definition triggers (key : string) (value : pyval) : bool :=
  str_in key CREATE_VPC_DB_SUBNET && truthy value.

(** Some item of the params names a user-facing input and passes the
    test of line 116. *)
Definition requests_subnets (ins : list Input.t) (items : dict) : bool :=
  existsb (fun kv => names_user_facing ins (fst kv)
                     && triggers (fst kv) (snd kv)) items.

(** The items of the params that name a user-facing input. *)
Definition accepted (ins : list Input.t) (items : dict) : dict :=
  filter (fun kv => names_user_facing ins (fst kv)) items.

(** The first key of the params that names an input which is not user
    facing. *)
Definition first_rejected (ins : list Input.t) (items : dict)
  : option string :=
  option_map fst (find (fun kv => names_internal ins (fst kv)) items).

(** A declared input whose attribute lines 77-88 can compute. *)
Definition resolvable (input : Input.t) : bool :=
  truthy (Input.user_facing input)
  || match input_value input with Ok _ => true | Raise _ => false end.

(** The references lines 90-97 append for one module. *)
Definition exported (name : string) (outs : list Output.t) : list pyval :=
  map (output_reference name)
    (filter (fun output => truthy (Output.export output)) outs).

(** The references a stack entry contributes. *)
Definition stack_exports (module : Stack.t) : list pyval :=
  match Stack.name module with
  | Some name =>
      match _read_config_file (Stack.stack_type module) name with
      | Some cfg =>
          match Config.outputs cfg with
          | Some outs => exported name outs
          | None => []
          end
      | None => []
      end
  | None => []
  end.

(** Whether a stack entry makes line 117 run. *)
Definition stack_requests_subnets (module : Stack.t) : bool :=
  match Stack.name module, Stack.params module with
  | Some name, Some items =>
      match _read_config_file (Stack.stack_type module) name with
      | Some cfg =>
          match Config.inputs cfg with
          | Some ins => requests_subnets ins items
          | None => false
          end
      | None => false
      end
  | _, _ => false
  end.

(** The block of an entry after lines 74-88. *)
Definition config_block (application_config : option Config.t)
    (block : dict) : result dict :=
  match application_config with
  | Some cfg =>
      match Config.inputs cfg with
      | Some ins => let? r := inputs_loop ins [] block in Ok (snd r)
      | None => Ok block
      end
  | None => Ok block
  end.

(** The references lines 90-97 append for a configuration. *)
Definition config_exports (name : string)
    (application_config : option Config.t) : list pyval :=
  match application_config with
  | Some cfg =>
      match Config.outputs cfg with
      | Some outs => exported name outs
      | None => []
      end
  | None => []
  end.

(** The block and the flag of an entry after lines 102-120. *)
Definition entry_params (application_config : option Config.t)
    (params : option dict) (block : dict) (create : bool)
  : result (dict * bool) :=
  match params with
  | Some items =>
      let? r := params_loop application_config items [] create in
      Ok (dict_update block (fst r), snd r)
  | None => Ok (block, create)
  end.

(** The block of an entry before its configuration is read. *)
Definition source_block (stack_type name : string) : dict :=
  [("source", PStr (module_source stack_type name))].

(** The write a stack entry ends with: its own path, and a block under
    its own name. *)
Definition stack_write (module : Stack.t) (w : string * pyval) : Prop :=
  exists name block,
    Stack.name module = Some name /\
    w = (stack_path (Stack.stack_type module), json_module name block).

(** The condition as the specification words it: the entry supplies a
    subnet-triggering key with a truthy value, whatever its configuration
    declares. *)
Definition supplies_trigger_as_specified (module : Stack.t) : bool :=
  match Stack.params module with
  | Some items => existsb (fun kv => triggers (fst kv) (snd kv)) items
  | None => false
  end.

(** The value of [create_database_subnets] in the vpc module among the
    files written, if there is one. *)
Definition vpc_flag (fs : list (string * pyval)) : option pyval :=
  match find (fun w => String.eqb (fst w) vpc_path) fs with
  | Some (_, PDict [(_, PDict [(_, PDict block)])]) =>
      dict_lookup "create_database_subnets" block
  | _ => None
  end.

(** The number of times a path was written. *)
Definition writes_to (path : string) (fs : list (string * pyval)) : nat :=
  List.length (filter (fun w => String.eqb (fst w) path) fs).

(** *** [_get_k8s_module_name] *)

(** The list comprehension: every module is asked for its [type]. *)
Fixpoint eks_modules (modules : list dict) : result (list dict) :=
  match modules with
  | [] => Ok []
  | _module :: rest =>
      let? type := getitem "type" (dict_lookup "type" _module) in
      let? k8s_module := eks_modules rest in
      Ok (if negb (ne_str type "eks") then (_module :: k8s_module)%list
          else k8s_module)
  end.

(** [return_key] is "cluster_name" when the caller leaves it out; the
    [None] that is returned when there is no such module is [PNone]. *)
Definition _get_k8s_module_name (self : Component) (return_key : string)
  : result pyval :=
  let? modules := getitem "modules" (modules self) in
  let? k8s_module := eks_modules modules in
  match k8s_module with
  | first :: _ => getitem return_key (dict_lookup return_key first)
  | [] => Ok PNone
  end.

(** *** [_common_service_input], [_user_input], [prepare_input] *)




Definition variable_path : string := "./" ++ TF_PATH ++ "/variable.tf.json".


(** *** The files of a run *)

(** What a path holds after the writes [fs]: opening it for writing
    truncates it, so it is what was dumped there last. *)
Fixpoint file_content (path : string) (fs : list (string * pyval))
  : option pyval :=
  match fs with
  | [] => None
  | w :: rest =>
      match file_content path rest with
      | Some obj => Some obj
      | None => if String.eqb (fst w) path then Some (snd w) else None
      end
  end.

(** A state after what a run added to it. *)
Definition extend (st added : state) : state :=
  mkState (output st ++ output added)%list (files st ++ files added)%list.

(** The entries of the output artifact [generate] adds in one run. *)
Definition output_entries (self : KubernetesStack) : list pyval :=
  (flat_map stack_exports (stacks self)
   ++ [state_storage_entry self; providers_entry self])%list.

(** A module which the comprehension of [_get_k8s_module_name] keeps. *)
Definition is_eks (_module : dict) : bool :=
  match dict_lookup "type" _module with
  | Some type => negb (ne_str type "eks")
  | None => false
  end.

(** A module that has a [type]. *)
Definition has_type (_module : dict) : bool :=
  match dict_lookup "type" _module with
  | Some _ => true
  | None => false
  end.

(** ** Dictionaries *)

Local Open Scope list_scope.

(** Drops from the context what a proof does not mention of the
    package. *)
Ltac forget_package :=
  try clear Provider_eq_str; try clear repr_other; try clear _is_env_match;
  try clear _read_config_file; try clear CREATE_VPC_DB_SUBNET;
  try clear TF_PATH.

Lemma dict_lookup_set_same k v d :
  dict_lookup k (dict_set k v d) = Some v.
Proof.
  induction d as [|[k' v'] d IH]; simpl.
  - now rewrite String.eqb_refl.
  - destruct (String.eqb k k') eqn:E; simpl; rewrite E; auto.
Qed.

Lemma dict_lookup_set_other k k' v d :
  k <> k' -> dict_lookup k (dict_set k' v d) = dict_lookup k d.
Proof.
  intros Hne. induction d as [|[k0 v0] d IH]; simpl.
  - apply String.eqb_neq in Hne. now rewrite Hne.
  - destruct (String.eqb k' k0) eqn:E; simpl.
    + apply String.eqb_eq in E. subst k0.
      apply String.eqb_neq in Hne. now rewrite Hne.
    + destruct (String.eqb k k0); auto.
Qed.

Lemma dict_set_twice k v d :
  dict_set k v (dict_set k v d) = dict_set k v d.
Proof.
  induction d as [|[k' v'] d IH]; simpl.
  - now rewrite String.eqb_refl.
  - destruct (String.eqb k k') eqn:E; simpl; rewrite E; congruence.
Qed.

Lemma dict_lookup_None k d :
  dict_lookup k d = None <-> ~ In k (keys d).
Proof.
  forget_package.
  induction d as [|[k' v'] d IH]; simpl.
  - tauto.
  - destruct (String.eqb k k') eqn:E.
    + apply String.eqb_eq in E. subst. split; [discriminate | tauto].
    + apply String.eqb_neq in E. rewrite IH. split.
      * intros H [H1 | H1]; [congruence | tauto].
      * tauto.
Qed.

Lemma dict_lookup_In k v d :
  NoDup (keys d) -> In (k, v) d -> dict_lookup k d = Some v.
Proof.
  induction d as [|[k' v'] d IH]; simpl; intros Hnd Hin.
  - contradiction.
  - inversion Hnd as [|? ? Hnotin Hnd']; subst.
    destruct Hin as [Heq | Hin].
    + inversion Heq; subst. now rewrite String.eqb_refl.
    + destruct (String.eqb k k') eqn:E.
      * apply String.eqb_eq in E. subst k'.
        exfalso. apply Hnotin. change k with (fst (k, v)).
        now apply in_map.
      * auto.
Qed.

(** Updating never binds a key that neither dictionary has. *)
Lemma dict_lookup_update_other k d e :
  ~ In k (keys e) -> dict_lookup k (dict_update d e) = dict_lookup k d.
Proof.
  forget_package.
  unfold dict_update. revert d.
  induction e as [|[k' v'] e IH]; simpl; intros d Hnotin.
  - reflexivity.
  - rewrite IH by tauto. apply dict_lookup_set_other. intros ->. tauto.
Qed.

(** The last item of [e] for a key is what the updated dictionary
    holds. *)
Lemma dict_lookup_update_last k v d e1 e2 :
  ~ In k (keys e2) ->
  dict_lookup k (dict_update d (e1 ++ (k, v) :: e2)) = Some v.
Proof.
  intros Hnotin. unfold dict_update.
  rewrite fold_left_app. simpl.
  fold (dict_update (dict_set k v (fold_left
         (fun acc kv => dict_set (fst kv) (snd kv) acc) e1 d)) e2).
  rewrite dict_lookup_update_other by assumption.
  apply dict_lookup_set_same.
Qed.

Lemma dict_lookup_update k d e :
  NoDup (keys e) ->
  dict_lookup k (dict_update d e) =
  match dict_lookup k e with
  | Some v => Some v
  | None => dict_lookup k d
  end.
Proof.
  intros Hnd. destruct (dict_lookup k e) as [v|] eqn:E.
  - assert (Hin : exists e1 e2, e = e1 ++ (k, v) :: e2).
    { clear Hnd. induction e as [|[k' v'] e IH]; simpl in E; [discriminate|].
      destruct (String.eqb k k') eqn:Ek.
      - apply String.eqb_eq in Ek. inversion E; subst.
        now exists [], e.
      - destruct (IH E) as (e1 & e2 & ->).
        now exists ((k', v') :: e1), e2. }
    destruct Hin as (e1 & e2 & ->).
    apply dict_lookup_update_last.
    unfold keys in Hnd. rewrite map_app in Hnd. simpl in Hnd.
    apply NoDup_remove_2 in Hnd. intros Hin. apply Hnd.
    apply in_or_app. now right.
  - apply dict_lookup_update_other. now apply dict_lookup_None.
Qed.

Lemma keys_dict_set k v d k' :
  In k' (keys (dict_set k v d)) <-> k' = k \/ In k' (keys d).
Proof.
  forget_package.
  induction d as [|[k0 v0] d IH]; simpl.
  - intuition congruence.
  - destruct (String.eqb k k0) eqn:E; simpl.
    + apply String.eqb_eq in E. subst. intuition congruence.
    + rewrite IH. intuition congruence.
Qed.

Lemma NoDup_dict_set k v d :
  NoDup (keys d) -> NoDup (keys (dict_set k v d)).
Proof.
  forget_package.
  induction d as [|[k0 v0] d IH]; simpl; intros Hnd.
  - constructor; [simpl; tauto | constructor].
  - inversion Hnd as [|? ? Hnotin Hnd']; subst.
    destruct (String.eqb k k0) eqn:E; simpl.
    + now constructor.
    + constructor; [|now apply IH].
      rewrite keys_dict_set. apply String.eqb_neq in E.
      intros [H | H]; [congruence | tauto].
Qed.

Lemma NoDup_dict_update d e :
  NoDup (keys d) -> NoDup (keys (dict_update d e)).
Proof.
  unfold dict_update. revert d.
  induction e as [|[k v] e IH]; simpl; intros d Hnd; auto.
  apply IH. now apply NoDup_dict_set.
Qed.

Lemma keys_dict_update d e k :
  In k (keys (dict_update d e)) <-> In k (keys d) \/ In k (keys e).
Proof.
  forget_package.
  unfold dict_update. revert d.
  induction e as [|[k' v'] e IH]; simpl; intros d.
  - tauto.
  - rewrite IH, keys_dict_set. intuition congruence.
Qed.

(** ** The loops over the params *)

Lemma names_input_split ins key :
  names_input ins key = names_user_facing ins key || names_internal ins key.
Proof.
  unfold names_input, names_user_facing, names_internal.
  induction ins as [|input ins IH]; simpl; [reflexivity|].
  rewrite IH.
  destruct (String.eqb key (Input.name input)),
    (truthy (Input.user_facing input)); simpl;
    repeat rewrite orb_true_r; reflexivity.
Qed.

(** The inner loop raises when the key names an input that is not user
    facing; otherwise it stores the item once if the key names a
    user-facing input and leaves everything alone if it names none. *)
Lemma match_inputs_spec key value ins params create :
  match_inputs key value ins params create =
  if names_internal ins key
  then Raise (KeyError (key ++ " is not a user facing parameter")%string)
  else if names_user_facing ins key
       then Ok (dict_set key value params, create || triggers key value)
       else Ok (params, create).
Proof.
  unfold names_internal, names_user_facing.
  revert params create.
  induction ins as [|input ins IH]; intros params create; simpl.
  - reflexivity.
  - destruct (String.eqb key (Input.name input)) eqn:Ek; simpl.
    + destruct (truthy (Input.user_facing input)) eqn:Eu; simpl.
      * rewrite IH. fold (triggers key value).
        destruct (existsb _ ins); [reflexivity|].
        rewrite dict_set_twice.
        destruct (existsb _ ins), (triggers key value), create; reflexivity.
      * reflexivity.
    + apply IH.
Qed.

Lemma params_loop_spec cfg ins items params create :
  Config.inputs cfg = Some ins ->
  params_loop (Some cfg) items params create =
  match first_rejected ins items with
  | Some k => Raise (KeyError (k ++ " is not a user facing parameter")%string)
  | None => Ok (dict_update params (accepted ins items),
                create || requests_subnets ins items)
  end.
Proof.
  intros Hins. unfold first_rejected, accepted, requests_subnets.
  revert params create.
  induction items as [|[key value] items IH]; intros params create; simpl.
  - now rewrite orb_false_r.
  - rewrite Hins. simpl. rewrite match_inputs_spec.
    destruct (names_internal ins key) eqn:Ei; simpl; [reflexivity|].
    destruct (names_user_facing ins key) eqn:Eu; simpl.
    + rewrite IH. destruct (find _ items); simpl; [reflexivity|].
      now rewrite orb_assoc.
    + apply IH.
Qed.

(** Without a configuration, or without its [inputs], the loop only
    survives an empty params mapping. *)
Lemma params_loop_no_inputs application_config e items params create :
  config_inputs application_config = Raise e ->
  params_loop application_config items params create =
  match items with
  | [] => Ok (params, create)
  | _ :: _ => Raise e
  end.
Proof.
  intros He. destruct items as [|[key value] items]; simpl.
  - reflexivity.
  - now rewrite He.
Qed.

Lemma first_rejected_None ins items :
  first_rejected ins items = None <->
  (forall kv, In kv items -> names_internal ins (fst kv) = false).
Proof.
  unfold first_rejected. split.
  - intros H kv Hin.
    destruct (find _ items) eqn:E; [discriminate|].
    now apply (find_none _ _ E).
  - intros H. destruct (find _ items) as [kv|] eqn:E; [|reflexivity].
    apply find_some in E. destruct E as [Hin Hk].
    rewrite (H kv Hin) in Hk. discriminate.
Qed.

Lemma first_rejected_Some ins items k :
  first_rejected ins items = Some k ->
  In k (keys items) /\ names_internal ins k = true.
Proof.
  unfold first_rejected. destruct (find _ items) as [kv|] eqn:E; simpl.
  - intros H. inversion H; subst. apply find_some in E.
    destruct E as [Hin Hk]. split; [now apply in_map | exact Hk].
  - discriminate.
Qed.

Lemma first_rejected_first ins items1 key value items2 :
  (forall kv, In kv items1 -> names_internal ins (fst kv) = false) ->
  names_internal ins key = true ->
  first_rejected ins (items1 ++ (key, value) :: items2) = Some key.
Proof.
  unfold first_rejected. intros Hpre Hkey.
  induction items1 as [|kv items1 IH]; simpl.
  - now rewrite Hkey.
  - rewrite (Hpre kv) by now left. apply IH.
    intros kv' Hin. apply Hpre. now right.
Qed.

Lemma accepted_keys ins items k :
  In k (keys (accepted ins items)) ->
  In k (keys items) /\ names_user_facing ins k = true.
Proof.
  unfold accepted, keys. rewrite in_map_iff.
  intros [kv [Hk Hin]]. apply filter_In in Hin. subst k.
  destruct Hin as [Hin Hacc]. split; [now apply in_map | exact Hacc].
Qed.

(** ** The loop over the declared inputs *)

Lemma inputs_loop_app ins1 ins2 inputs block :
  inputs_loop (ins1 ++ ins2) inputs block =
  let? r := inputs_loop ins1 inputs block in
  inputs_loop ins2 (fst r) (snd r).
Proof.
  revert inputs block.
  induction ins1 as [|input ins1 IH]; intros inputs block; simpl.
  - reflexivity.
  - destruct (truthy (Input.user_facing input)); simpl.
    + apply IH.
    + destruct (input_value input); simpl; [apply IH | reflexivity].
Qed.

(** The loop only adds keys to [inputs], and only names of inputs. *)
Lemma inputs_loop_keys ins inputs block inputs' block' k :
  inputs_loop ins inputs block = Ok (inputs', block') ->
  (In k (keys inputs) -> In k (keys inputs')) /\
  (In k (keys inputs') -> In k (keys inputs) \/ names_internal ins k = true).
Proof.
  forget_package.
  unfold names_internal. revert inputs block.
  induction ins as [|input ins IH]; intros inputs block; simpl.
  - intros H. inversion H; subst. tauto.
  - destruct (truthy (Input.user_facing input)); simpl.
    + intros H. apply IH in H. rewrite andb_false_r. exact H.
    + destruct (input_value input) as [v|e]; simpl; [|discriminate].
      intros H. apply IH in H. destruct H as [H1 H2]. split.
      * intros Hin. apply H1. apply keys_dict_set. now right.
      * intros Hin. apply H2 in Hin. destruct Hin as [Hin | Hin].
        -- apply keys_dict_set in Hin. destruct Hin as [-> | Hin].
           ++ right. now rewrite String.eqb_refl.
           ++ now left.
        -- right. rewrite Hin. now rewrite orb_true_r.
Qed.

Lemma inputs_loop_NoDup ins inputs block inputs' block' :
  inputs_loop ins inputs block = Ok (inputs', block') ->
  NoDup (keys inputs) -> NoDup (keys inputs').
Proof.
  revert inputs block.
  induction ins as [|input ins IH]; intros inputs block; simpl.
  - intros H. now inversion H; subst.
  - destruct (truthy (Input.user_facing input)); simpl.
    + apply IH.
    + destruct (input_value input) as [v|e]; simpl; [|discriminate].
      intros H Hnd. apply IH in H; [exact H|]. now apply NoDup_dict_set.
Qed.

(** Inputs that follow leave a binding alone unless they are internal
    and carry its name. *)
Lemma inputs_loop_keeps ins inputs block inputs' block' k :
  inputs_loop ins inputs block = Ok (inputs', block') ->
  (forall input, In input ins ->
     truthy (Input.user_facing input) = false -> Input.name input <> k) ->
  dict_lookup k inputs' = dict_lookup k inputs.
Proof.
  revert inputs block.
  induction ins as [|input ins IH]; intros inputs block; simpl.
  - intros H _. now inversion H; subst.
  - intros H Hlater.
    destruct (truthy (Input.user_facing input)) eqn:Eu; simpl in H.
    + apply IH in H; [exact H|]. intros j Hj. apply Hlater. now right.
    + destruct (input_value input) as [v|e]; simpl in H; [|discriminate].
      apply IH in H.
      * rewrite H. apply dict_lookup_set_other.
        intros E. apply (Hlater input (or_introl eq_refl) Eu). now symmetry.
      * intros j Hj. apply Hlater. now right.
Qed.

(** The block which the loop leaves holds the computed inputs on top of
    what it held before. *)
Lemma inputs_loop_block ins inputs block inputs' block' :
  inputs_loop ins inputs block = Ok (inputs', block') ->
  NoDup (keys inputs) ->
  (forall k v, dict_lookup k inputs = Some v -> dict_lookup k block = Some v) ->
  forall k,
    dict_lookup k block' =
    match dict_lookup k inputs' with
    | Some v => Some v
    | None => dict_lookup k block
    end.
Proof.
  revert inputs block.
  induction ins as [|input ins IH]; intros inputs block; simpl.
  - intros H _ Hagree k. inversion H; subst.
    destruct (dict_lookup k inputs') eqn:E; [now apply Hagree | reflexivity].
  - intros H Hnd Hagree k.
    assert (Hstep : forall inputs1,
               inputs_loop ins inputs1 (dict_update block inputs1)
               = Ok (inputs', block') ->
               NoDup (keys inputs1) ->
               dict_lookup k block' =
               match dict_lookup k inputs' with
               | Some v => Some v
               | None => dict_lookup k block
               end).
    { intros inputs1 H1 Hnd1.
      rewrite (IH _ _ H1 Hnd1).
      - destruct (dict_lookup k inputs') eqn:E; [reflexivity|].
        rewrite dict_lookup_update by assumption.
        assert (E1 : dict_lookup k inputs1 = None).
        { apply dict_lookup_None. intros Hin.
          apply (proj1 (inputs_loop_keys _ _ _ _ _ k H1)) in Hin.
          now apply dict_lookup_None in E. }
        now rewrite E1.
      - intros k' v' Hk'. rewrite dict_lookup_update by assumption.
        now rewrite Hk'. }
    destruct (truthy (Input.user_facing input)); simpl in H.
    + now apply (Hstep inputs).
    + destruct (input_value input) as [v|e]; simpl in H; [|discriminate].
      apply (Hstep _ H). now apply NoDup_dict_set.
Qed.

Lemma inputs_loop_total ins inputs block :
  forallb resolvable ins = true ->
  exists r, inputs_loop ins inputs block = Ok r.
Proof.
  revert inputs block.
  induction ins as [|input ins IH]; intros inputs block; simpl.
  - intros _. now eexists.
  - unfold resolvable at 1. intros H. apply andb_prop in H.
    destruct H as [Hin Hrest].
    destruct (truthy (Input.user_facing input)); simpl in *.
    + now apply IH.
    + destruct (input_value input); [|discriminate]. simpl. now apply IH.
Qed.

(** ** The loop over the declared outputs *)

Lemma outputs_loop_spec name outs st :
  outputs_loop name outs st =
  (Ok tt, mkState (output st ++ exported name outs) (files st)).
Proof.
  unfold exported. revert st.
  induction outs as [|o outs IH]; intros st; simpl.
  - unfold ret. rewrite app_nil_r. now destruct st.
  - unfold bind. destruct (truthy (Output.export o)); simpl.
    + rewrite IH. simpl. now rewrite <- app_assoc.
    + apply IH.
Qed.

(** ** One stack entry *)

(** The body of the loop over the stacks, phase by phase: the check for
    a name, the declared inputs, the exported outputs, the params, and
    last the write. *)
Lemma process_module_eq module create st :
  process_module module create st =
  match Stack.name module with
  | None =>
      (Raise (KeyError ("No application assigned to the stack: "
                        ++ Stack.stack_type module)%string), st)
  | Some name =>
      let stack_type := Stack.stack_type module in
      let application_config := _read_config_file stack_type name in
      match config_block application_config (source_block stack_type name) with
      | Raise e => (Raise e, st)
      | Ok block =>
          let out := output st ++ config_exports name application_config in
          match entry_params application_config (Stack.params module)
                  block create with
          | Raise e => (Raise e, mkState out (files st))
          | Ok (block', create') =>
              (Ok create',
               mkState out
                 (files st ++ [(stack_path stack_type, json_module name block')]))
          end
      end
  end.
Proof.
  unfold process_module, bind, lift, ret, write_json, source_block,
    config_block, config_exports, entry_params.
  destruct st as [out fs].
  destruct (Stack.name module) as [name|]; simpl; [|reflexivity].
  destruct (_read_config_file (Stack.stack_type module) name) as [cfg|]; simpl.
  - destruct (Config.inputs cfg) as [ins|]; simpl.
    + destruct (inputs_loop ins [] _) as [[inputs block]|e]; simpl;
        [|reflexivity].
      destruct (Config.outputs cfg) as [outs|]; simpl.
      * rewrite outputs_loop_spec. simpl.
        destruct (Stack.params module) as [items|]; simpl; [|reflexivity].
        destruct (params_loop _ items [] create) as [[params c]|e]; reflexivity.
      * rewrite app_nil_r.
        destruct (Stack.params module) as [items|]; simpl; [|reflexivity].
        destruct (params_loop _ items [] create) as [[params c]|e]; reflexivity.
    + destruct (Config.outputs cfg) as [outs|]; simpl.
      * rewrite outputs_loop_spec. simpl.
        destruct (Stack.params module) as [items|]; simpl; [|reflexivity].
        destruct (params_loop _ items [] create) as [[params c]|e]; reflexivity.
      * rewrite app_nil_r.
        destruct (Stack.params module) as [items|]; simpl; [|reflexivity].
        destruct (params_loop _ items [] create) as [[params c]|e]; reflexivity.
  - rewrite app_nil_r.
    destruct (Stack.params module) as [items|]; simpl; [|reflexivity].
    destruct (params_loop None items [] create) as [[params c]|e]; reflexivity.
Qed.

(** The flag after the params of an entry, when they raise nothing. *)
Lemma entry_params_flag application_config params block create block' create' :
  entry_params application_config params block create = Ok (block', create') ->
  create' =
  create || match params, application_config with
            | Some items, Some cfg =>
                match Config.inputs cfg with
                | Some ins => requests_subnets ins items
                | None => false
                end
            | _, _ => false
            end.
Proof.
  unfold entry_params. destruct params as [items|].
  - destruct application_config as [cfg|].
    + destruct (Config.inputs cfg) as [ins|] eqn:Ei.
      * rewrite (params_loop_spec _ _ _ _ _ Ei).
        destruct (first_rejected ins items); simpl; [discriminate|].
        intros H. now inversion H.
      * rewrite (params_loop_no_inputs _ (KeyError "inputs"))
          by (simpl; now rewrite Ei).
        destruct items; simpl; [|discriminate].
        intros H. inversion H. now rewrite orb_false_r.
    + rewrite (params_loop_no_inputs _
                 (TypeError "'NoneType' object is not subscriptable"))
        by reflexivity.
      destruct items; simpl; [|discriminate].
      intros H. inversion H. now rewrite orb_false_r.
  - intros H. inversion H. now rewrite orb_false_r.
Qed.

(** What a stack entry that is processed to its end leaves behind. *)
Lemma process_module_ok module create st create' st' :
  process_module module create st = (Ok create', st') ->
  exists name block,
    Stack.name module = Some name /\
    create' = create || stack_requests_subnets module /\
    output st' = output st ++ stack_exports module /\
    files st' = files st ++ [(stack_path (Stack.stack_type module),
                              json_module name block)].
Proof.
  rewrite process_module_eq.
  unfold stack_requests_subnets, stack_exports.
  destruct (Stack.name module) as [name|]; [|discriminate].
  cbv zeta.
  destruct (config_block _ _) as [block|e]; [|discriminate].
  destruct (entry_params _ _ block create) as [[block' c]|e] eqn:Ep;
    [|discriminate].
  intros H. inversion H; subst. simpl.
  exists name, block'. apply entry_params_flag in Ep.
  split; [reflexivity|]. split; [|split; [|reflexivity]].
  - rewrite Ep. destruct (Stack.params module); reflexivity.
  - unfold config_exports.
    destruct (_read_config_file (Stack.stack_type module) name); reflexivity.
Qed.

(** ** The pass over the stacks *)

Lemma stacks_loop_app modules1 modules2 create st :
  stacks_loop (modules1 ++ modules2) create st =
  match stacks_loop modules1 create st with
  | (Ok create', st') => stacks_loop modules2 create' st'
  | (Raise e, st') => (Raise e, st')
  end.
Proof.
  revert create st.
  induction modules1 as [|m modules1 IH]; intros create st; simpl.
  - reflexivity.
  - unfold bind.
    destruct (process_module m create st) as [[c|e] st1]; [apply IH | reflexivity].
Qed.

Lemma stacks_loop_ok modules create st create' st' :
  stacks_loop modules create st = (Ok create', st') ->
  create' = create || existsb stack_requests_subnets modules /\
  output st' = output st ++ flat_map stack_exports modules /\
  exists ws, files st' = files st ++ ws /\ Forall2 stack_write modules ws.
Proof.
  revert create st.
  induction modules as [|m modules IH]; intros create st; simpl.
  - unfold ret. intros H. inversion H; subst.
    rewrite orb_false_r, app_nil_r. repeat split.
    exists []. rewrite app_nil_r. split; [reflexivity | constructor].
  - unfold bind.
    destruct (process_module m create st) as [[c|e] st1] eqn:Em; [|discriminate].
    intros H. apply IH in H. destruct H as (Hc & Ho & ws & Hf & Hws).
    apply process_module_ok in Em.
    destruct Em as (name & block & Hn & Hc1 & Ho1 & Hf1).
    split; [|split].
    + rewrite Hc, Hc1. now rewrite orb_assoc.
    + rewrite Ho, Ho1. now rewrite app_assoc.
    + eexists. split.
      * rewrite Hf, Hf1. rewrite <- app_assoc. reflexivity.
      * constructor; [|exact Hws]. now exists name, block.
Qed.

Lemma append_assoc (a b c : string) :
  ((a ++ b) ++ c)%string = (a ++ (b ++ c))%string.
Proof.
  induction a as [|x a IH]; simpl; [reflexivity | now rewrite IH].
Qed.

Lemma append_cancel_l (s a b : string) :
  (s ++ a)%string = (s ++ b)%string -> a = b.
Proof.
  induction s as [|c s IH]; simpl; intros H; [exact H|].
  inversion H. auto.
Qed.

(** No stack entry writes where the vpc module goes. *)
Lemma stack_path_not_vpc stack_type :
  String.eqb (stack_path stack_type) vpc_path = false.
Proof.
  apply String.eqb_neq. unfold stack_path, vpc_path. intros H.
  apply append_cancel_l in H. apply append_cancel_l in H.
  discriminate H.
Qed.

Lemma stack_writes_not_vpc modules ws :
  Forall2 stack_write modules ws -> writes_to vpc_path ws = 0.
Proof.
  unfold writes_to. induction 1 as [|m w modules ws Hw _ IH]; simpl.
  - reflexivity.
  - destruct Hw as (name & block & _ & ->). cbn [fst].
    now rewrite stack_path_not_vpc.
Qed.

Lemma provider_obj_eqb_eq a b :
  provider_obj_eqb a b = true <-> a = b.
Proof.
  destruct a as [[|]|s], b as [[|]|t]; simpl; split;
    try reflexivity; try discriminate.
  - intros H. apply String.eqb_eq in H. now subst.
  - intros H. inversion H. apply String.eqb_refl.
Qed.

(** ** The injected vpc module *)

(** C1, as amended.  When [process_stack_modules] runs to its end, the
    stack entries have written one descriptor each, none of them where
    the vpc module goes.  If the provider is AWS exactly one more
    descriptor follows: the module "vpc", whose [create_database_subnets]
    is [true] iff some stack entry supplied a subnet-triggering key with a
    truthy value and that key names a user-facing input of the entry's
    configuration.  For any other provider nothing follows. *)
Theorem vpc_module_injected self st st' :
  process_stack_modules self st = (Ok tt, st') ->
  exists ws,
    Forall2 stack_write (stacks self) ws /\
    writes_to vpc_path ws = 0 /\
    (provider self = Member AWS ->
     let vpc :=
       PDict [("module",
               PDict [("vpc",
                       PDict [("source", PStr "../modules/cloud/aws/vpc");
                              ("create_database_subnets",
                               PBool (existsb stack_requests_subnets
                                        (stacks self)))])])] in
     files st' = files st ++ ws ++ [(vpc_path, vpc)] /\
     writes_to vpc_path (ws ++ [(vpc_path, vpc)]) = 1) /\
    (provider self <> Member AWS -> files st' = files st ++ ws).
Proof.
  unfold process_stack_modules, bind. intros H.
  destruct (stacks_loop (stacks self) false st) as [[create|e] st1] eqn:El;
    [|discriminate].
  apply stacks_loop_ok in El. destruct El as (Hc & _ & ws & Hf & Hws).
  simpl in Hc. subst create.
  pose proof (stack_writes_not_vpc _ _ Hws) as Hnone.
  exists ws. split; [exact Hws|]. split; [exact Hnone|]. split.
  - intros Hp. apply provider_obj_eqb_eq in Hp. rewrite Hp in H.
    unfold write_json in H. inversion H; subst. simpl. split.
    + rewrite Hf. now rewrite <- app_assoc.
    + unfold writes_to in *. rewrite filter_app, length_app, Hnone.
      simpl. now rewrite String.eqb_refl.
  - intros Hp.
    destruct (provider_obj_eqb (provider self) (Member AWS)) eqn:Ea.
    + apply provider_obj_eqb_eq in Ea. contradiction.
    + destruct (provider_obj_eqb (provider self) (Member GCP));
        unfold ret in H; inversion H; now subst.
Qed.

(** ** A stack entry without a name *)

(** C4.  When a stack entry has no [name], the run raises the KeyError of
    line 57 on reaching it, in the very state the entries before it left:
    their descriptors, one each, and nothing for the entry itself. *)
Theorem missing_name_aborts self st pre module post create st1 :
  stacks self = pre ++ module :: post ->
  Stack.name module = None ->
  stacks_loop pre false st = (Ok create, st1) ->
  process_stack_modules self st =
    (Raise (KeyError ("No application assigned to the stack: "
                      ++ Stack.stack_type module)%string), st1) /\
  exists ws, files st1 = files st ++ ws /\ Forall2 stack_write pre ws.
Proof.
  forget_package.
  intros Hstacks Hname Hpre. split.
  - unfold process_stack_modules, bind.
    rewrite Hstacks, stacks_loop_app, Hpre. simpl. unfold bind.
    rewrite process_module_eq, Hname. reflexivity.
  - apply stacks_loop_ok in Hpre. tauto.
Qed.

(** ** The output artifact *)

(** C7.  When [generate] runs to its end on a fresh instance, the last
    file it writes is the output artifact.  Its list holds, stack by
    stack and in the order of each configuration, one reference per
    output whose [export] is truthy, then the state storage entry and the
    providers entry, and nothing else. *)
Theorem output_artifact self fs st' :
  generate self (fresh fs) = (Ok tt, st') ->
  (forall name o,
      output_reference name o =
      PDict [(Output.name o,
              PDict [("value",
                      PStr ("${ module." ++ name ++ "." ++ Output.name o
                            ++ " }")%string)])]) /\
  exists ws,
    files st' =
    fs ++ ws ++
    [(output_path,
      PDict [("output",
              PList (flat_map stack_exports (stacks self) ++
                     [PDict [("state_storage",
                              PDict [("value", PStr (state_file_name self))])];
                      PDict [("providers",
                              PDict [("value",
                                      PDict [("aws",
                                              PDict [("region",
                                                      PStr (region self));
                                                     ("account_id",
                                                      PStr (account_id self))])])])]]))])].
Proof.
  intros H. split.
  { intros name o. unfold output_reference.
    rewrite !append_assoc. reflexivity. }
  unfold generate, process_stack_config, process_stack_inputs in H.
  unfold bind at 1 2 3 in H. unfold ret at 1 2 in H.
  destruct (process_stack_modules self (fresh fs)) as [[[]|e] st1] eqn:Em;
    [|discriminate].
  assert (Hout : output st1 = flat_map stack_exports (stacks self)
                 /\ exists ws, files st1 = fs ++ ws).
  { unfold process_stack_modules, bind in Em.
    destruct (stacks_loop (stacks self) false (fresh fs))
      as [[create|e] st2] eqn:El; [|discriminate].
    apply stacks_loop_ok in El. destruct El as (_ & Ho & ws & Hf & _).
    simpl in Ho, Hf.
    destruct (provider_obj_eqb (provider self) (Member AWS)).
    - unfold write_json in Em. inversion Em; subst. simpl. split; [exact Ho|].
      eexists. rewrite Hf, <- app_assoc. reflexivity.
    - destruct (provider_obj_eqb (provider self) (Member GCP));
        unfold ret in Em; inversion Em; subst; (split; [exact Ho|]);
        now exists ws. }
  destruct Hout as (Ho & ws & Hf).
  unfold process_stack_outputs, bind, append_output, get_output, write_json in H.
  simpl in H. inversion H; subst. simpl.
  exists ws. rewrite Hf, Ho, <- !app_assoc. reflexivity.
Qed.

(** ** The attributes of a descriptor *)

Lemma ne_str_false v s : ne_str v s = false <-> v = PStr s.
Proof.
  destruct v; simpl; split; try discriminate.
  - intros H. apply negb_false_iff, String.eqb_eq in H. now subst.
  - intros H. inversion H. now rewrite String.eqb_refl.
Qed.

Lemma input_value_ok input v :
  input_value input = Ok v ->
  exists default,
    Input.default input = Some default /\
    if ne_str default "None" then v = default
    else exists value,
        Input.value input = Some value /\
        v = PStr ("${ " ++ py_str repr_other value ++ " }")%string.
Proof.
  unfold input_value.
  destruct (Input.default input) as [d|]; simpl; [|discriminate].
  intros H. exists d. split; [reflexivity|].
  destruct (ne_str d "None").
  - now inversion H.
  - destruct (Input.value input) as [x|]; simpl in H; [|discriminate].
    exists x. split; [reflexivity | now inversion H].
Qed.

(** An internal input is bound in [inputs] to its value, unless an
    internal input of the same name follows. *)
Lemma inputs_loop_binds pre input post inputs block inputs' block' :
  inputs_loop (pre ++ input :: post) inputs block = Ok (inputs', block') ->
  truthy (Input.user_facing input) = false ->
  (forall later, In later post ->
     truthy (Input.user_facing later) = false ->
     Input.name later <> Input.name input) ->
  exists v,
    input_value input = Ok v /\
    dict_lookup (Input.name input) inputs' = Some v.
Proof.
  intros H Hu Hlater. rewrite inputs_loop_app in H.
  destruct (inputs_loop pre inputs block) as [[inputs1 block1]|e];
    simpl in H; [|discriminate].
  rewrite Hu in H. simpl in H.
  destruct (input_value input) as [v|e]; simpl in H; [|discriminate].
  exists v. split; [reflexivity|].
  rewrite (inputs_loop_keeps _ _ _ _ _ _ H Hlater).
  apply dict_lookup_set_same.
Qed.

(** What the inputs of a configuration put into the block. *)
Lemma config_block_lookup cfg ins block block1 :
  Config.inputs cfg = Some ins ->
  config_block (Some cfg) block = Ok block1 ->
  exists inputs,
    inputs_loop ins [] block = Ok (inputs, block1) /\
    forall k,
      dict_lookup k block1 =
      match dict_lookup k inputs with
      | Some v => Some v
      | None => dict_lookup k block
      end.
Proof.
  unfold config_block. intros -> H.
  destruct (inputs_loop ins [] block) as [[inputs b]|e] eqn:El;
    simpl in H; [|discriminate].
  inversion H; subst. exists inputs. split; [reflexivity|].
  apply (inputs_loop_block _ _ _ _ _ El).
  - constructor.
  - discriminate.
Qed.

Lemma NoDup_keys_filter (f : string * pyval -> bool) (d : dict) :
  NoDup (keys d) -> NoDup (keys (filter f d)).
Proof.
  forget_package.
  induction d as [|kv d IH]; simpl; intros Hnd; [constructor|].
  inversion Hnd as [|? ? Hnotin Hnd']; subst.
  destruct (f kv); simpl; [|auto].
  constructor; [|auto].
  unfold keys. rewrite in_map_iff. intros [kv' [Hk Hin]].
  apply filter_In in Hin. apply Hnotin. rewrite <- Hk.
  apply in_map. tauto.
Qed.

(** The params that are accepted end up in the block, and no other key
    of the block changes. *)
Lemma entry_params_lookup cfg ins items block create block' create' :
  Config.inputs cfg = Some ins ->
  entry_params (Some cfg) (Some items) block create = Ok (block', create') ->
  first_rejected ins items = None /\
  (forall k, ~ In k (keys (accepted ins items)) ->
             dict_lookup k block' = dict_lookup k block) /\
  (forall k v, NoDup (keys items) -> In (k, v) (accepted ins items) ->
               dict_lookup k block' = Some v).
Proof.
  forget_package.
  intros Hins. unfold entry_params.
  rewrite (params_loop_spec _ _ _ _ _ Hins).
  destruct (first_rejected ins items); simpl; [discriminate|].
  intros H. inversion H; subst. clear H.
  assert (Hnd : NoDup (keys (dict_update [] (accepted ins items)))).
  { apply NoDup_dict_update. constructor. }
  split; [reflexivity|]. split.
  - intros k Hk. rewrite dict_lookup_update by assumption.
    assert (E : dict_lookup k (dict_update [] (accepted ins items)) = None).
    { apply dict_lookup_None. rewrite keys_dict_update. simpl. tauto. }
    now rewrite E.
  - intros k v Hitems Hin. rewrite dict_lookup_update by assumption.
    assert (E : dict_lookup k (dict_update [] (accepted ins items)) = Some v).
    { pose proof (NoDup_keys_filter
                    (fun kv => names_user_facing ins (fst kv)) _ Hitems) as Hacc.
      fold (accepted ins items) in Hacc.
      destruct (in_split _ _ Hin) as (e1 & e2 & He). rewrite He in *.
      apply dict_lookup_update_last.
      unfold keys in Hacc. rewrite map_app in Hacc. simpl in Hacc.
      apply NoDup_remove_2 in Hacc. intros Hk. apply Hacc.
      apply in_or_app. now right. }
    now rewrite E.
Qed.

(** The descriptor of an entry that is processed to its end. *)
Lemma process_module_block module create st create' st' name :
  Stack.name module = Some name ->
  process_module module create st = (Ok create', st') ->
  let stack_type := Stack.stack_type module in
  let application_config := _read_config_file stack_type name in
  exists block1 block,
    config_block application_config (source_block stack_type name)
    = Ok block1 /\
    entry_params application_config (Stack.params module) block1 create
    = Ok (block, create') /\
    files st' = files st ++ [(stack_path stack_type, json_module name block)].
Proof.
  intros Hname. rewrite process_module_eq, Hname. cbv zeta.
  destruct (config_block _ _) as [block1|e]; [|discriminate].
  destruct (entry_params _ _ block1 create) as [[block c]|e] eqn:Ep;
    [|discriminate].
  intros H. inversion H; subst. simpl. now exists block1, block.
Qed.

(** C2, as amended.  Take a declared input that is not user facing, with
    no internal input of the same name after it, in the configuration of
    an entry that is processed to its end, and the mapping the entry
    writes to the file of its stack type.  If the default of the input is
    the string "None", the input has a [value] and the mapping binds the
    name of the input to "${ " followed by the text of that value and
    " }", which is not the string "None"; if its default is anything
    else, the mapping binds its name to that default. *)
Theorem internal_input_resolved module create st create' st' name cfg
    pre input post :
  Stack.name module = Some name ->
  _read_config_file (Stack.stack_type module) name = Some cfg ->
  Config.inputs cfg = Some (pre ++ input :: post) ->
  truthy (Input.user_facing input) = false ->
  (forall later, In later post ->
     truthy (Input.user_facing later) = false ->
     Input.name later <> Input.name input) ->
  process_module module create st = (Ok create', st') ->
  exists block,
    files st' =
    files st ++ [(("./" ++ TF_PATH ++ "/stack_" ++ Stack.stack_type module
                   ++ ".tf.json")%string,
                  PDict [("module", PDict [(name, PDict block)])])] /\
    (Input.default input = Some (PStr "None") ->
     exists value,
       Input.value input = Some value /\
       dict_lookup (Input.name input) block =
       Some (PStr ("${ "
                   ++ match value with
                      | PStr s => s
                      | PNone => "None"
                      | PBool true => "True"
                      | PBool false => "False"
                      | PInt z => NilZero.string_of_int (Z.to_int z)
                      | other => repr_other other
                      end
                   ++ " }")%string) /\
       dict_lookup (Input.name input) block <> Some (PStr "None")) /\
    (forall default,
        Input.default input = Some default ->
        default <> PStr "None" ->
        dict_lookup (Input.name input) block = Some default).
Proof.
  intros Hname Hcfg Hins Hu Hlater H.
  destruct (process_module_block _ _ _ _ _ _ Hname H)
    as (block1 & block & Hb1 & Hp & Hf).
  rewrite Hcfg in Hb1, Hp.
  destruct (config_block_lookup _ _ _ _ Hins Hb1) as (inputs & Hloop & Hlook).
  destruct (inputs_loop_binds _ _ _ _ _ _ _ Hloop Hu Hlater) as (v & Hv & Hin).
  assert (Hint : names_internal (pre ++ input :: post) (Input.name input) = true).
  { unfold names_internal. rewrite existsb_app. simpl.
    rewrite String.eqb_refl, Hu. simpl. now rewrite orb_true_r. }
  assert (Hblock : dict_lookup (Input.name input) block = Some v).
  { transitivity (dict_lookup (Input.name input) block1).
    - destruct (Stack.params module) as [items|].
      + destruct (entry_params_lookup _ _ _ _ _ _ _ Hins Hp) as (Hrej & Hkeep & _).
        apply Hkeep. intros Hk. apply accepted_keys in Hk.
        destruct Hk as [Hk _]. unfold keys in Hk. apply in_map_iff in Hk.
        destruct Hk as (kv & Hkv & Hkin).
        rewrite first_rejected_None in Hrej. specialize (Hrej kv Hkin).
        rewrite Hkv in Hrej. congruence.
      + simpl in Hp. now inversion Hp.
    - rewrite Hlook. now rewrite Hin. }
  exists block. split; [exact Hf|].
  apply input_value_ok in Hv. destruct Hv as (d & Hd & Hv). split.
  - intros Hnone. rewrite Hd in Hnone. inversion Hnone; subst d.
    simpl in Hv. destruct Hv as (x & Hx & ->).
    exists x. split; [exact Hx|]. split; [exact Hblock|].
    rewrite Hblock. simpl. discriminate.
  - intros d' Hd' Hne. rewrite Hd in Hd'. inversion Hd'; subst d'.
    destruct (ne_str d "None") eqn:E.
    + now subst v.
    + apply ne_str_false in E. contradiction.
Qed.

(** ** The params of an entry *)

(** C3.  When a param of an entry names a declared input that is not
    user facing, and the internal inputs of the configuration resolve,
    the entry raises the KeyError of line 119.  Its message names the
    first such param, which is the given one if none comes before it,
    and no file is written for the entry. *)
Theorem internal_param_rejected module create st name cfg ins
    items1 key value items2 :
  Stack.name module = Some name ->
  _read_config_file (Stack.stack_type module) name = Some cfg ->
  Config.inputs cfg = Some ins ->
  forallb resolvable ins = true ->
  Stack.params module = Some (items1 ++ (key, value) :: items2) ->
  names_internal ins key = true ->
  exists k,
    In k (keys (items1 ++ (key, value) :: items2)) /\
    names_internal ins k = true /\
    fst (process_module module create st) =
      Raise (KeyError (k ++ " is not a user facing parameter")%string) /\
    files (snd (process_module module create st)) = files st /\
    ((forall kv, In kv items1 -> names_internal ins (fst kv) = false) ->
     k = key).
Proof.
  intros Hname Hcfg Hins Hres Hparams Hkey.
  set (items := items1 ++ (key, value) :: items2) in *.
  destruct (first_rejected ins items) as [k|] eqn:Erej.
  - exists k. destruct (first_rejected_Some _ _ _ Erej) as [Hk1 Hk2].
    split; [exact Hk1|]. split; [exact Hk2|].
    rewrite process_module_eq, Hname. cbv zeta. rewrite Hcfg.
    unfold config_block. rewrite Hins.
    destruct (inputs_loop_total ins [] (source_block (Stack.stack_type module) name) Hres)
      as [r Hr].
    rewrite Hr. simpl. rewrite Hparams. unfold entry_params.
    rewrite (params_loop_spec _ _ _ _ _ Hins). fold items. rewrite Erej.
    simpl. split; [reflexivity|]. split; [reflexivity|].
    intros Hfirst.
    pose proof (first_rejected_first ins items1 key value items2 Hfirst Hkey)
      as Hf.
    fold items in Hf. congruence.
  - rewrite first_rejected_None in Erej.
    assert (Hin : In (key, value) items).
    { unfold items. apply in_or_app. right. now left. }
    apply Erej in Hin. simpl in Hin. congruence.
Qed.

Lemma names_input_false ins key :
  names_input ins key = false ->
  names_user_facing ins key = false /\ names_internal ins key = false.
Proof.
  rewrite names_input_split. apply orb_false_elim.
Qed.

(** The params loop does not see an item whose key names no input. *)
Lemma params_loop_skip cfg ins items1 key value items2 params create :
  Config.inputs cfg = Some ins ->
  names_input ins key = false ->
  params_loop (Some cfg) (items1 ++ (key, value) :: items2) params create =
  params_loop (Some cfg) (items1 ++ items2) params create.
Proof.
  intros Hins Hkey. apply names_input_false in Hkey.
  destruct Hkey as [Hu Hi].
  rewrite !(params_loop_spec _ _ _ _ _ Hins).
  unfold first_rejected, accepted, requests_subnets.
  rewrite !filter_app, !existsb_app. simpl. rewrite Hu. simpl.
  assert (Hfind : find (fun kv => names_internal ins (fst kv))
                    (items1 ++ (key, value) :: items2) =
                  find (fun kv => names_internal ins (fst kv))
                    (items1 ++ items2)).
  { induction items1 as [|kv items1 IH]; simpl.
    - now rewrite Hi.
    - now rewrite IH. }
  now rewrite Hfind.
Qed.

(** X18.  When the configuration of an entry has [inputs] and a param of
    the entry names none of them, the entry is processed exactly as it is
    without that param: the param raises nothing, so that the entry is
    processed to its end whenever the internal inputs resolve and no other
    param is rejected, and it leaves nothing in the mapping the entry
    writes, whose block binds the key only if it is "source", and then to
    the directory of the application. *)
Theorem unknown_param_dropped module create st name cfg ins
    items1 key value items2 :
  Stack.name module = Some name ->
  _read_config_file (Stack.stack_type module) name = Some cfg ->
  Config.inputs cfg = Some ins ->
  Stack.params module = Some (items1 ++ (key, value) :: items2) ->
  names_input ins key = false ->
  let stack_type := Stack.stack_type module in
  process_module module create st =
  process_module (Stack.mk stack_type (Some name) (Some (items1 ++ items2)))
    create st /\
  (forallb resolvable ins = true ->
   (forall kv, In kv (items1 ++ items2) ->
               names_internal ins (fst kv) = false) ->
   exists create' st', process_module module create st = (Ok create', st')) /\
  (forall create' st',
      process_module module create st = (Ok create', st') ->
      exists block,
        files st' =
        files st ++
        [(("./" ++ TF_PATH ++ "/stack_" ++ stack_type ++ ".tf.json")%string,
          PDict [("module", PDict [(name, PDict block)])])] /\
        dict_lookup key block =
        if String.eqb key "source"
        then Some (PStr ("../modules/applications/" ++ stack_type ++ "/"
                         ++ name ++ "/tf_module")%string)
        else None).
Proof.
  intros Hname Hcfg Hins Hparams Hkey stack_type. subst stack_type.
  assert (Heq : process_module module create st =
                process_module
                  (Stack.mk (Stack.stack_type module) (Some name)
                     (Some (items1 ++ items2)))
                  create st).
  { rewrite !process_module_eq.
    cbn [Stack.name Stack.stack_type Stack.params].
    rewrite Hname. cbv zeta. rewrite Hcfg, Hparams.
    unfold entry_params.
    now rewrite (params_loop_skip _ _ _ _ _ _ _ _ Hins Hkey). }
  split; [exact Heq|]. split.
  - intros Hres Hothers. rewrite Heq, process_module_eq.
    cbn [Stack.name Stack.stack_type Stack.params]. cbv zeta.
    rewrite Hcfg. unfold config_block. rewrite Hins.
    destruct (inputs_loop_total ins []
                (source_block (Stack.stack_type module) name) Hres)
      as [r Hr].
    rewrite Hr. simpl. unfold entry_params.
    rewrite (params_loop_spec _ _ _ _ _ Hins).
    apply first_rejected_None in Hothers. rewrite Hothers. simpl.
    now eexists _, _.
  - intros create' st' H.
    destruct (process_module_block _ _ _ _ _ _ Hname H)
      as (block1 & block & Hb1 & Hp & Hf).
    rewrite Hcfg in Hb1, Hp. rewrite Hparams in Hp.
    destruct (config_block_lookup _ _ _ _ Hins Hb1) as (inputs & Hloop & Hlook).
    destruct (entry_params_lookup _ _ _ _ _ _ _ Hins Hp) as (_ & Hkeep & _).
    apply names_input_false in Hkey. destruct Hkey as [Hu Hi].
    exists block. split; [exact Hf|].
    rewrite Hkeep.
    + rewrite Hlook.
      assert (E : dict_lookup key inputs = None).
      { apply dict_lookup_None. intros Hin.
        apply (proj2 (inputs_loop_keys _ _ _ _ _ key Hloop)) in Hin.
        destruct Hin as [[] | Hin]. congruence. }
      rewrite E. simpl. reflexivity.
    + intros Hin. apply accepted_keys in Hin. destruct Hin as [_ Hin].
      congruence.
Qed.

(** C8.  When a param of an entry names a declared input that is user
    facing and the entry is processed to its end, the mapping the entry
    writes to the file of its stack type binds, in the block under the
    name of the application, the key of the param to the value supplied. *)
Theorem user_facing_param_passed module create st create' st' name cfg ins
    items key value :
  Stack.name module = Some name ->
  _read_config_file (Stack.stack_type module) name = Some cfg ->
  Config.inputs cfg = Some ins ->
  Stack.params module = Some items ->
  NoDup (keys items) ->
  In (key, value) items ->
  names_user_facing ins key = true ->
  process_module module create st = (Ok create', st') ->
  exists block,
    files st' =
    files st ++ [(("./" ++ TF_PATH ++ "/stack_" ++ Stack.stack_type module
                   ++ ".tf.json")%string,
                  PDict [("module", PDict [(name, PDict block)])])] /\
    dict_lookup key block = Some value.
Proof.
  intros Hname Hcfg Hins Hparams Hnd Hin Hkey H.
  destruct (process_module_block _ _ _ _ _ _ Hname H)
    as (block1 & block & _ & Hp & Hf).
  rewrite Hcfg, Hparams in Hp.
  destruct (entry_params_lookup _ _ _ _ _ _ _ Hins Hp) as (_ & _ & Hacc).
  exists block. split; [exact Hf|].
  apply Hacc; [exact Hnd|].
  unfold accepted. apply filter_In. split; [exact Hin | exact Hkey].
Qed.

(** Params of an entry for which no configuration was found: line 106
    subscripts [None]. *)
Lemma params_without_config module create st name kv items :
  Stack.name module = Some name ->
  _read_config_file (Stack.stack_type module) name = None ->
  Stack.params module = Some (kv :: items) ->
  process_module module create st =
  (Raise (TypeError "'NoneType' object is not subscriptable"), st).
Proof.
  intros Hname Hcfg Hparams.
  rewrite process_module_eq, Hname. cbv zeta. rewrite Hcfg, Hparams.
  destruct kv as [key value]. simpl. rewrite app_nil_r. now destruct st.
Qed.

(** ** The environment defaults *)

Lemma variables_loop_spec variables ks user_input :
  (forall k, In k ks -> In k (keys variables)) ->
  exists defaults,
    variables_loop variables ks user_input =
      Ok (user_input ++ map (fun kd => variable_descriptor (fst kd) (snd kd))
                          defaults) /\
    map fst defaults = ks /\
    Forall (fun kd => dict_lookup (fst kd) variables = Some (snd kd)) defaults.
Proof.
  revert user_input.
  induction ks as [|k ks IH]; intros user_input Hks; simpl.
  - exists []. simpl. rewrite app_nil_r. repeat split. constructor.
  - destruct (dict_lookup k variables) as [v|] eqn:E.
    + simpl.
      destruct (IH (user_input ++ [variable_descriptor k v])) as (ds & Hl & Hk & Hd).
      { intros k' Hk'. apply Hks. now right. }
      exists ((k, v) :: ds). simpl. rewrite Hl, Hk, <- app_assoc.
      repeat split. now constructor.
    + apply dict_lookup_None in E. exfalso. apply E, Hks. now left.
Qed.

Lemma looked_up_items variables items defaults :
  NoDup (keys variables) ->
  incl items variables ->
  map fst defaults = keys items ->
  Forall (fun kd => dict_lookup (fst kd) variables = Some (snd kd)) defaults ->
  defaults = items.
Proof.
  intros Hnd. revert defaults.
  induction items as [|[k v] items IH]; intros defaults Hincl Hk Hd.
  - destruct defaults; [reflexivity | discriminate].
  - destruct defaults as [|[k' v'] defaults]; [discriminate|].
    simpl in Hk. inversion Hk; subst. inversion Hd as [|? ? Hlook Hd']; subst.
    simpl in Hlook.
    rewrite (dict_lookup_In k v variables Hnd) in Hlook
      by (apply Hincl; now left).
    inversion Hlook; subst. f_equal.
    apply IH; auto. intros kv Hkv. apply Hincl. now right.
Qed.

(** Iterating over a dictionary and looking each key up again visits its
    items. *)
Lemma variables_loop_items variables user_input :
  NoDup (keys variables) ->
  variables_loop variables (keys variables) user_input =
  Ok (user_input ++ map (fun kv => variable_descriptor (fst kv) (snd kv))
                      variables).
Proof.
  intros Hnd.
  destruct (variables_loop_spec variables (keys variables) user_input)
    as (ds & Hl & Hk & Hd); [auto|].
  rewrite Hl.
  now rewrite (looked_up_items variables variables ds Hnd (incl_refl _) Hk Hd).
Qed.

(** C9.  Of the environments, the first whose name matches is the only
    one that contributes: the result holds one descriptor per key of its
    variables, in their order, or nothing if it has no variables,
    whatever environments come after it. *)
Theorem first_matching_environment self pre env post :
  environments (stack_config self) = Some (pre ++ env :: post) ->
  (forall e, In e pre -> _is_env_match (Env.name e) = false) ->
  _is_env_match (Env.name env) = true ->
  (forall variables, Env.variables env = Some variables ->
                     NoDup (keys variables)) ->
  _default_config_input self =
  Ok match Env.variables env with
     | Some variables =>
         map (fun kv =>
                PDict [(fst kv,
                        PList [PDict [("type", PStr "string");
                                      ("default", snd kv)]])])
           variables
     | None => []
     end.
Proof.
  intros Henvs Hpre Henv Hnd. unfold _default_config_input.
  rewrite Henvs. clear Henvs.
  induction pre as [|e pre IH]; simpl.
  - rewrite Henv. destruct (Env.variables env) as [variables|]; [|reflexivity].
    rewrite variables_loop_items by now apply Hnd. reflexivity.
  - rewrite (Hpre e) by now left. apply IH.
    intros e' He'. apply Hpre. now right.
Qed.

(** ** The references to the cluster *)

(** For a member of [Provider] the answer is what the class makes of the
    comparison with the str "aws": nothing if they differ, the references
    if they are equal. *)
Lemma get_eks_module_refs_of_member p sf r a ss sc k8s_module_name :
  get_eks_module_refs (mkKubernetesStack sf r a (Member p) ss sc)
    k8s_module_name =
  if Provider_eq_str p "aws"
  then get_eks_module_refs (mkKubernetesStack sf r a (Name "aws") ss sc)
         k8s_module_name
  else None.
Proof.
  unfold get_eks_module_refs. simpl. now destruct (Provider_eq_str p "aws").
Qed.

(** The branch is taken when the attribute holds the str itself. *)
Lemma get_eks_module_refs_of_name sf r a ss sc :
  get_eks_module_refs (mkKubernetesStack sf r a (Name "aws") ss sc)
    (Some "k8s") =
  Some [("host", PStr "${module.k8s.k8s_endpoint}");
        ("token", PStr "${data.aws_eks_cluster_auth.k8s.token}");
        ("cluster_ca_certificate",
          PStr "${base64decode(module.k8s.k8s_ca_data)}")].
Proof.
  reflexivity.
Qed.

(** ** Where the artifacts go *)

Lemma length_append (a b : string) :
  String.length (a ++ b)%string = String.length a + String.length b.
Proof.
  induction a as [|c a IH]; simpl; [reflexivity | now rewrite IH].
Qed.

Lemma append_cancel_r (a b s : string) :
  (a ++ s)%string = (b ++ s)%string -> a = b.
Proof.
  revert b. induction a as [|c a IH]; intros [|d b] H; simpl in H.
  - reflexivity.
  - apply (f_equal String.length) in H. simpl in H.
    rewrite length_append in H. lia.
  - apply (f_equal String.length) in H. simpl in H.
    rewrite length_append in H. lia.
  - inversion H; subst. f_equal. now apply IH.
Qed.

Lemma stack_path_inj stack_type1 stack_type2 :
  stack_path stack_type1 = stack_path stack_type2 -> stack_type1 = stack_type2.
Proof.
  unfold stack_path. intros H.
  do 3 apply append_cancel_l in H. now apply append_cancel_r in H.
Qed.

Lemma stack_path_apart stack_type :
  stack_path stack_type <> output_path /\
  stack_path stack_type <> variable_path.
Proof.
  unfold stack_path, output_path, variable_path.
  split; intros H; do 2 apply append_cancel_l in H; discriminate H.
Qed.

Lemma fixed_paths_apart :
  vpc_path <> output_path /\
  vpc_path <> variable_path /\
  output_path <> variable_path.
Proof.
  unfold vpc_path, output_path, variable_path.
  repeat split; intros H; do 2 apply append_cancel_l in H; discriminate H.
Qed.

(** X2.  The files of a run never collide: two stack entries share a file
    exactly when they have the same stack type, and no stack type makes an
    entry write where the vpc module, the outputs or the variables go,
    which are three different files. *)
Theorem artifact_paths_distinct stack_type1 stack_type2 :
  (stack_path stack_type1 = stack_path stack_type2
   <-> stack_type1 = stack_type2) /\
  stack_path stack_type1 <> vpc_path /\
  stack_path stack_type1 <> output_path /\
  stack_path stack_type1 <> variable_path /\
  vpc_path <> output_path /\
  vpc_path <> variable_path /\
  output_path <> variable_path.
Proof.
  split; [split; [apply stack_path_inj | now intros ->]|].
  split; [apply String.eqb_neq, stack_path_not_vpc|].
  split; [apply stack_path_apart|]. split; [apply stack_path_apart|].
  apply fixed_paths_apart.
Qed.

(** ** A run and the state it starts from *)

Lemma extend_fresh st : extend st (fresh []) = st.
Proof.
  destruct st. unfold extend. simpl. now rewrite !app_nil_r.
Qed.

Lemma extend_assoc st a b : extend (extend st a) b = extend st (extend a b).
Proof.
  unfold extend. simpl. now rewrite !app_assoc.
Qed.

(** A stack entry is processed without regard to what was accumulated or
    written before. *)
Lemma process_module_frame module create st :
  process_module module create st =
  (fst (process_module module create (fresh [])),
   extend st (snd (process_module module create (fresh [])))).
Proof.
  rewrite !process_module_eq.
  destruct (Stack.name module) as [name|]; cbv zeta.
  - destruct (config_block _ _) as [block|e].
    + destruct (entry_params _ _ block create) as [[block' c]|e];
        unfold extend; simpl; now rewrite ?app_nil_r.
    + simpl. now rewrite extend_fresh.
  - simpl. now rewrite extend_fresh.
Qed.

Lemma stacks_loop_frame modules create st :
  stacks_loop modules create st =
  (fst (stacks_loop modules create (fresh [])),
   extend st (snd (stacks_loop modules create (fresh [])))).
Proof.
  revert create st.
  induction modules as [|m modules IH]; intros create st; simpl.
  - unfold ret. simpl. now rewrite extend_fresh.
  - unfold bind. rewrite (process_module_frame m create st).
    destruct (process_module m create (fresh [])) as [[c|e] d]; simpl.
    + rewrite (IH c (extend st d)), (IH c d).
      destruct (stacks_loop modules c (fresh [])) as [r d']; simpl.
      now rewrite extend_assoc.
    + reflexivity.
Qed.

(** The flag an entry is entered with only comes back or-ed with what the
    entry asks for: neither the descriptor nor the error depends on it. *)
Lemma params_loop_flag application_config items params create :
  params_loop application_config items params create =
  match params_loop application_config items params false with
  | Ok (params', asked) => Ok (params', create || asked)
  | Raise e => Raise e
  end.
Proof.
  destruct (config_inputs application_config) as [ins|e] eqn:Ec.
  - destruct application_config as [cfg|]; [|discriminate].
    simpl in Ec. destruct (Config.inputs cfg) as [ins'|] eqn:Ei; [|discriminate].
    inversion Ec; subst.
    rewrite !(params_loop_spec _ _ _ _ _ Ei).
    destruct (first_rejected ins items); reflexivity.
  - rewrite !(params_loop_no_inputs _ _ _ _ _ Ec).
    destruct items; [|reflexivity]. now rewrite orb_false_r.
Qed.

Lemma process_module_flag module create st :
  process_module module create st =
  match process_module module false st with
  | (Ok asked, st') => (Ok (create || asked), st')
  | (Raise e, st') => (Raise e, st')
  end.
Proof.
  rewrite !process_module_eq.
  destruct (Stack.name module) as [name|]; cbv zeta; [|reflexivity].
  destruct (config_block _ _) as [block|e]; [|reflexivity].
  unfold entry_params. destruct (Stack.params module) as [items|].
  - rewrite (params_loop_flag _ items [] create).
    destruct (params_loop _ items [] false) as [[params asked]|e]; reflexivity.
  - now rewrite orb_false_r.
Qed.

Lemma file_content_app path fs1 fs2 :
  file_content path (fs1 ++ fs2) =
  match file_content path fs2 with
  | Some obj => Some obj
  | None => file_content path fs1
  end.
Proof.
  induction fs1 as [|w fs1 IH]; simpl.
  - now destruct (file_content path fs2).
  - rewrite IH. now destruct (file_content path fs2).
Qed.

Lemma file_content_untouched path fs :
  (forall w, In w fs -> fst w <> path) -> file_content path fs = None.
Proof.
  induction fs as [|w fs IH]; simpl; intros H; [reflexivity|].
  rewrite IH by (intros w' Hw'; apply H; now right).
  assert (Hw : fst w <> path) by (apply H; now left).
  apply String.eqb_neq in Hw. now rewrite Hw.
Qed.

Lemma stack_writes_in modules ws w :
  Forall2 stack_write modules ws -> In w ws ->
  exists module, In module modules /\ stack_write module w.
Proof.
  induction 1 as [|m w' modules ws Hw _ IH]; simpl; intros Hin.
  - contradiction.
  - destruct Hin as [-> | Hin].
    + exists m. split; [now left | exact Hw].
    + destruct (IH Hin) as (m' & Hm' & Hw'). exists m'. split; [now right | exact Hw'].
Qed.

(** X1.  The file of a stack type holds one descriptor: when
    [process_stack_modules] runs to its end, what is left under the path
    of an entry after which no entry of the same stack type comes is the
    descriptor that entry writes when it is processed alone, whatever
    entries of that stack type came before it. *)
Theorem same_stack_type_overwrites self st st' pre module post :
  stacks self = pre ++ module :: post ->
  (forall later, In later post ->
                 Stack.stack_type later <> Stack.stack_type module) ->
  process_stack_modules self st = (Ok tt, st') ->
  exists asked descriptor,
    process_module module false (fresh []) =
      (Ok asked,
       mkState (stack_exports module)
         [(stack_path (Stack.stack_type module), descriptor)]) /\
    file_content (stack_path (Stack.stack_type module)) (files st')
    = Some descriptor.
Proof.
  intros Hstacks Hlater H.
  unfold process_stack_modules, bind in H. rewrite Hstacks in H.
  rewrite stacks_loop_app in H.
  destruct (stacks_loop pre false st) as [[c1|e] s1]; [|discriminate].
  simpl in H. unfold bind in H.
  rewrite process_module_flag, process_module_frame in H.
  destruct (process_module module false (fresh [])) as [[asked|e] d] eqn:Em;
    [|discriminate].
  simpl in H.
  destruct (process_module_ok _ _ _ _ _ Em) as (name & block & _ & _ & Ho & Hf).
  simpl in Ho, Hf.
  destruct (stacks_loop post (c1 || asked) (extend s1 d)) as [[c2|e] s2] eqn:El;
    [|discriminate].
  apply stacks_loop_ok in El. destruct El as (_ & _ & ws & Hws & Hall).
  exists asked, (json_module name block). split.
  { destruct d as [o f]. simpl in Ho, Hf. now subst. }
  assert (Hs2 : file_content (stack_path (Stack.stack_type module)) (files s2)
                = Some (json_module name block)).
  { rewrite Hws, file_content_app.
    rewrite (file_content_untouched _ ws).
    - simpl. rewrite file_content_app, Hf. simpl.
      now rewrite String.eqb_refl.
    - intros w Hw.
      destruct (stack_writes_in _ _ _ Hall Hw) as (later & Hin & n & b & _ & ->).
      simpl. intros Heq. apply stack_path_inj in Heq.
      now apply (Hlater later). }
  destruct (provider_obj_eqb (provider self) (Member AWS)).
  - unfold write_json in H. inversion H; subst. cbn [files].
    rewrite file_content_app. cbn [file_content fst snd].
    pose proof (stack_path_not_vpc (Stack.stack_type module)) as Hv.
    rewrite String.eqb_sym in Hv. now rewrite Hv.
  - destruct (provider_obj_eqb (provider self) (Member GCP));
      unfold ret in H; inversion H; now subst.
Qed.

(** ** Entries that fail *)

Lemma inputs_loop_raises pre input post inputs block e :
  forallb resolvable pre = true ->
  truthy (Input.user_facing input) = false ->
  input_value input = Raise e ->
  inputs_loop (pre ++ input :: post) inputs block = Raise e.
Proof.
  intros Hpre Hu He. rewrite inputs_loop_app.
  destruct (inputs_loop_total pre inputs block Hpre) as [r Hr].
  rewrite Hr. simpl. rewrite Hu, He. reflexivity.
Qed.

(** X3.  A declared input that is not user facing and has no [default],
    or has the default "None" and no [value], makes its entry raise
    KeyError, with the missing key as its argument, before anything is
    appended to the outputs or written, when the internal inputs before it
    resolve. *)
Theorem unresolvable_input_aborts module create st name cfg pre input post :
  Stack.name module = Some name ->
  _read_config_file (Stack.stack_type module) name = Some cfg ->
  Config.inputs cfg = Some (pre ++ input :: post) ->
  forallb resolvable pre = true ->
  truthy (Input.user_facing input) = false ->
  Input.default input = None \/
  (Input.default input = Some (PStr "None") /\ Input.value input = None) ->
  process_module module create st =
  (Raise (KeyError match Input.default input with
                   | None => "default"
                   | Some _ => "value"
                   end), st).
Proof.
  intros Hname Hcfg Hins Hpre Hu Hmissing.
  rewrite process_module_eq, Hname. cbv zeta. rewrite Hcfg.
  unfold config_block. rewrite Hins.
  rewrite (inputs_loop_raises pre input post [] _
             (KeyError match Input.default input with
                       | None => "default"
                       | Some _ => "value"
                       end) Hpre Hu).
  - reflexivity.
  - unfold input_value. destruct Hmissing as [Hd | [Hd Hv]].
    + now rewrite Hd.
    + rewrite Hd, Hv. reflexivity.
Qed.

(** X4.  When the configuration of an entry has no [inputs] and the entry
    has params, the entry raises KeyError with the argument "inputs" on
    its first param; it writes no file, but the outputs its configuration
    exports have been appended by then. *)
Theorem params_without_inputs module create st name cfg kv items :
  Stack.name module = Some name ->
  _read_config_file (Stack.stack_type module) name = Some cfg ->
  Config.inputs cfg = None ->
  Stack.params module = Some (kv :: items) ->
  process_module module create st =
  (Raise (KeyError "inputs"),
   mkState (output st ++ stack_exports module) (files st)).
Proof.
  intros Hname Hcfg Hins Hparams.
  rewrite process_module_eq, Hname. cbv zeta. rewrite Hcfg, Hparams.
  unfold config_block, entry_params, stack_exports, config_exports.
  rewrite Hins, Hname, Hcfg. destruct kv as [key value]. simpl.
  rewrite Hins. reflexivity.
Qed.

(** X5.  An entry that is rejected for a param naming an input that is not
    user facing has written no file, but the outputs its configuration
    exports have been appended by then. *)
Theorem rejected_entry_keeps_exports module create st name cfg ins items
    key value :
  Stack.name module = Some name ->
  _read_config_file (Stack.stack_type module) name = Some cfg ->
  Config.inputs cfg = Some ins ->
  forallb resolvable ins = true ->
  Stack.params module = Some items ->
  In (key, value) items ->
  names_internal ins key = true ->
  snd (process_module module create st) =
  mkState (output st ++ stack_exports module) (files st).
Proof.
  intros Hname Hcfg Hins Hres Hparams Hin Hkey.
  rewrite process_module_eq, Hname. cbv zeta. rewrite Hcfg, Hparams.
  unfold config_block, entry_params, stack_exports, config_exports.
  rewrite Hins, Hname, Hcfg.
  destruct (inputs_loop_total ins []
              (source_block (Stack.stack_type module) name) Hres) as [r Hr].
  rewrite Hr. simpl. rewrite (params_loop_spec _ _ _ _ _ Hins).
  destruct (first_rejected ins items) as [k|] eqn:Erej; [reflexivity|].
  rewrite first_rejected_None in Erej. apply Erej in Hin. simpl in Hin.
  congruence.
Qed.

(** X8.  An entry for which no configuration is found is processed to its
    end exactly when it has no params or an empty mapping of them: its
    descriptor then holds the source alone, nothing is appended to the
    outputs and the flag is left as it is.  With any param it raises
    TypeError and leaves the state as it is. *)
Theorem entry_without_config module create st name :
  Stack.name module = Some name ->
  _read_config_file (Stack.stack_type module) name = None ->
  process_module module create st =
  match Stack.params module with
  | Some (_ :: _) =>
      (Raise (TypeError "'NoneType' object is not subscriptable"), st)
  | _ =>
      (Ok create,
       mkState (output st)
         (files st ++
          [(stack_path (Stack.stack_type module),
            PDict [("module",
                    PDict [(name,
                            PDict [("source",
                                    PStr (module_source
                                            (Stack.stack_type module) name))])])])]))
  end.
Proof.
  intros Hname Hcfg. rewrite process_module_eq, Hname. cbv zeta. rewrite Hcfg.
  destruct st as [out fs].
  destruct (Stack.params module) as [[|[key value] items]|]; simpl;
    now rewrite app_nil_r.
Qed.

(** ** The keys of a descriptor *)

(** The block of an entry that is processed to its end, key by key. *)
Lemma block_lookup cfg ins params block block1 create create' base k :
  Config.inputs cfg = Some ins ->
  config_block (Some cfg) base = Ok block1 ->
  entry_params (Some cfg) params block1 create = Ok (block, create') ->
  (exists items, params = Some items /\ In k (keys items) /\
                 names_user_facing ins k = true) \/
  (dict_lookup k block <> None /\ names_internal ins k = true) \/
  dict_lookup k block = dict_lookup k base.
Proof.
  forget_package.
  intros Hins Hb1 Hp.
  destruct (config_block_lookup _ _ _ _ Hins Hb1) as (inputs & Hloop & Hlook).
  assert (H1 : (dict_lookup k block1 <> None /\ names_internal ins k = true)
               \/ dict_lookup k block1 = dict_lookup k base).
  { rewrite Hlook. destruct (dict_lookup k inputs) as [v|] eqn:E.
    - left. split; [discriminate|].
      assert (Hin : In k (keys inputs)).
      { destruct (in_dec string_dec k (keys inputs)) as [Hin | Hnot];
          [exact Hin|].
        apply dict_lookup_None in Hnot. congruence. }
      apply (proj2 (inputs_loop_keys _ _ _ _ _ k Hloop)) in Hin.
      now destruct Hin as [[] | Hin].
    - now right. }
  destruct params as [items|].
  - destruct (entry_params_lookup _ _ _ _ _ _ _ Hins Hp) as (_ & Hkeep & _).
    destruct (in_dec string_dec k (keys (accepted ins items))) as [Hin | Hnot].
    + left. exists items. apply accepted_keys in Hin. tauto.
    + right. now rewrite (Hkeep k Hnot).
  - simpl in Hp. inversion Hp; subst. now right.
Qed.

(** X6.  The block of the descriptor of an entry that is processed to its
    end has no keys but "source", the names of the declared inputs that
    are not user facing, and the keys of its params that name a
    user-facing input: a default of a user-facing input is never written. *)
Theorem descriptor_keys module create st create' st' name cfg ins :
  Stack.name module = Some name ->
  _read_config_file (Stack.stack_type module) name = Some cfg ->
  Config.inputs cfg = Some ins ->
  process_module module create st = (Ok create', st') ->
  exists block,
    files st' = files st ++ [(stack_path (Stack.stack_type module),
                              json_module name block)] /\
    forall k,
      In k (keys block) ->
      k = "source"%string \/
      names_internal ins k = true \/
      (exists items, Stack.params module = Some items /\
                     In k (keys items) /\ names_user_facing ins k = true).
Proof.
  intros Hname Hcfg Hins H.
  destruct (process_module_block _ _ _ _ _ _ Hname H)
    as (block1 & block & Hb1 & Hp & Hf).
  rewrite Hcfg in Hb1, Hp.
  exists block. split; [exact Hf|]. intros k Hk.
  destruct (block_lookup _ _ _ _ _ _ _ _ k Hins Hb1 Hp) as [Hu | [[_ Hi] | Hb]].
  - now right; right.
  - now right; left.
  - left. unfold source_block in Hb. simpl in Hb.
    destruct (String.eqb k "source") eqn:E.
    + now apply String.eqb_eq in E.
    + apply dict_lookup_None in Hb. contradiction.
Qed.

(** X7.  When the configuration of an entry declares no input named
    "source", the mapping the entry writes to the file of its stack type,
    if it is processed to its end, binds "source", in the block under the
    name of the application, to the directory of the application below
    the stack type. *)
Theorem source_attribute module create st create' st' name cfg ins :
  Stack.name module = Some name ->
  _read_config_file (Stack.stack_type module) name = Some cfg ->
  Config.inputs cfg = Some ins ->
  names_input ins "source" = false ->
  process_module module create st = (Ok create', st') ->
  exists block,
    files st' =
    files st ++ [(("./" ++ TF_PATH ++ "/stack_" ++ Stack.stack_type module
                   ++ ".tf.json")%string,
                  PDict [("module", PDict [(name, PDict block)])])] /\
    dict_lookup "source" block =
    Some (PStr ("../modules/applications/" ++ Stack.stack_type module ++ "/"
                ++ name ++ "/tf_module")%string).
Proof.
  intros Hname Hcfg Hins Hsource H.
  destruct (process_module_block _ _ _ _ _ _ Hname H)
    as (block1 & block & Hb1 & Hp & Hf).
  rewrite Hcfg in Hb1, Hp.
  exists block. split; [exact Hf|].
  apply names_input_false in Hsource. destruct Hsource as [Hu Hi].
  destruct (block_lookup _ _ _ _ _ _ _ _ "source"%string Hins Hb1 Hp)
    as [(items & _ & _ & Hu') | [[_ Hi'] | Hb]].
  - congruence.
  - congruence.
  - exact Hb.
Qed.

(** ** Whole runs *)

Lemma stack_writes_elsewhere modules ws path :
  (forall stack_type, stack_path stack_type <> path) ->
  Forall2 stack_write modules ws -> writes_to path ws = 0.
Proof.
  unfold writes_to. intros Hpath.
  induction 1 as [|m w modules ws Hw _ IH]; simpl; [reflexivity|].
  destruct Hw as (name & block & _ & ->). cbn [fst].
  destruct (String.eqb_spec (stack_path (Stack.stack_type m)) path) as [E|_].
  - now apply Hpath in E.
  - exact IH.
Qed.

(** The write that follows the pass over the stacks, if any. *)
Lemma process_stack_modules_ok self st st' :
  process_stack_modules self st = (Ok tt, st') ->
  output st' = output st ++ flat_map stack_exports (stacks self) /\
  exists ws,
    Forall2 stack_write (stacks self) ws /\
    files st' =
    files st ++ ws ++
    match provider self with
    | Member AWS =>
        [(vpc_path,
          vpc_module (existsb stack_requests_subnets (stacks self)))]
    | _ => []
    end.
Proof.
  unfold process_stack_modules, bind. intros H.
  destruct (stacks_loop (stacks self) false st) as [[create|e] st1] eqn:El;
    [|discriminate].
  apply stacks_loop_ok in El. destruct El as (Hc & Ho & ws & Hf & Hws).
  simpl in Hc. subst create.
  destruct (provider self) as [[|]|name]; simpl in H;
    unfold write_json, ret in H; inversion H; subst; simpl;
    (split; [exact Ho|]); exists ws; (split; [exact Hws|]);
    rewrite Hf, ?app_nil_r, <- ?app_assoc; reflexivity.
Qed.

Lemma process_stack_modules_frame self st :
  process_stack_modules self st =
  (fst (process_stack_modules self (fresh [])),
   extend st (snd (process_stack_modules self (fresh [])))).
Proof.
  unfold process_stack_modules, bind.
  rewrite (stacks_loop_frame (stacks self) false st).
  destruct (stacks_loop (stacks self) false (fresh [])) as [[create|e] d];
    simpl; [|reflexivity].
  destruct (provider_obj_eqb (provider self) (Member AWS)).
  - unfold write_json, extend. simpl. now rewrite app_assoc.
  - destruct (provider_obj_eqb (provider self) (Member GCP)); reflexivity.
Qed.

Lemma generate_eq self st :
  generate self st =
  match process_stack_modules self st with
  | (Ok _, st') =>
      (Ok tt,
       mkState (output st' ++ [state_storage_entry self; providers_entry self])
         (files st' ++
          [(output_path,
            PDict [("output",
                    PList (output st' ++ [state_storage_entry self;
                                          providers_entry self]))])]))
  | (Raise e, st') => (Raise e, st')
  end.
Proof.
  unfold generate, process_stack_config, process_stack_inputs,
    process_stack_outputs, bind, ret, append_output, get_output, write_json.
  destruct (process_stack_modules self st) as [[[]|e] st1]; simpl;
    [|reflexivity].
  now rewrite <- !app_assoc.
Qed.

Lemma writes_to_app path fs1 fs2 :
  writes_to path (fs1 ++ fs2) = writes_to path fs1 + writes_to path fs2.
Proof.
  unfold writes_to. now rewrite filter_app, length_app.
Qed.

Lemma writes_to_other path path' obj :
  path' <> path -> writes_to path [(path', obj)] = 0.
Proof.
  intros H. unfold writes_to. cbn [filter fst].
  apply String.eqb_neq in H. now rewrite H.
Qed.

(** X9.  A run of [generate] that comes to its end has written one file
    per stack entry, one more if the provider is AWS, and the output
    artifact; it has not written the variables artifact, which only
    [prepare_input] writes. *)
Theorem generate_writes self st st' :
  generate self st = (Ok tt, st') ->
  exists ws,
    files st' = files st ++ ws /\
    List.length ws =
    List.length (stacks self)
    + match provider self with Member AWS => 1 | _ => 0 end + 1 /\
    writes_to variable_path ws = 0.
Proof.
  rewrite generate_eq.
  destruct (process_stack_modules self st) as [[[]|e] st1] eqn:Em;
    [|discriminate].
  intros H. inversion H; subst. clear H. cbn [files].
  apply process_stack_modules_ok in Em. destruct Em as (_ & ws & Hws & Hf).
  pose proof fixed_paths_apart as (_ & Hvpc & Hout).
  assert (Hstack : writes_to variable_path ws = 0).
  { apply (stack_writes_elsewhere _ _ _
             (fun t => proj2 (stack_path_apart t)) Hws). }
  eexists. split; [rewrite Hf, <- !app_assoc; reflexivity|].
  rewrite !length_app, !writes_to_app, Hstack, (Forall2_length Hws).
  rewrite (writes_to_other _ _ _ Hout).
  destruct (provider self) as [[|]|name];
    rewrite ?(writes_to_other _ _ _ Hvpc); simpl; lia.
Qed.

(** X10.  [generate] does not reset the accumulated outputs: a second run
    on the instance that a first run was completed on also comes to its
    end, and the output artifact it writes lists every entry of the first
    run twice. *)
Theorem generate_again self fs st1 :
  generate self (fresh fs) = (Ok tt, st1) ->
  exists st2 ws,
    generate self st1 = (Ok tt, st2) /\
    file_content output_path (files st1) =
      Some (PDict [("output", PList (output_entries self))]) /\
    files st2 =
    files st1 ++ ws ++
    [(output_path,
      PDict [("output", PList (output_entries self ++ output_entries self))])].
Proof.
  rewrite !generate_eq.
  rewrite (process_stack_modules_frame self st1).
  rewrite (process_stack_modules_frame self (fresh fs)).
  destruct (process_stack_modules self (fresh [])) as [[[]|e] d] eqn:Em;
    simpl; [|discriminate].
  apply process_stack_modules_ok in Em. destruct Em as (Ho & _).
  simpl in Ho. intros H. inversion H; subst. clear H. simpl.
  unfold output_entries. rewrite Ho.
  eexists _, (files d). split; [reflexivity|]. split.
  - rewrite file_content_app. simpl. now rewrite String.eqb_refl.
  - rewrite <- !app_assoc. reflexivity.
Qed.

(** X16.  The first stack entry that raises ends the run: [generate]
    raises the same exception in the state the entry left, so that the
    files of the entries before it stay, and no later entry, vpc module or
    output artifact is written. *)
Theorem first_failure_aborts self st pre module post create st1 e st2 :
  stacks self = pre ++ module :: post ->
  stacks_loop pre false st = (Ok create, st1) ->
  process_module module create st1 = (Raise e, st2) ->
  generate self st = (Raise e, st2) /\
  exists ws,
    files st2 = files st ++ ws /\ Forall2 stack_write pre ws.
Proof.
  intros Hstacks Hpre Hm. split.
  - rewrite generate_eq. unfold process_stack_modules, bind.
    rewrite Hstacks, stacks_loop_app, Hpre. simpl. unfold bind.
    now rewrite Hm.
  - apply stacks_loop_ok in Hpre. destruct Hpre as (_ & _ & ws & Hf & Hws).
    exists ws. split; [|exact Hws].
    rewrite process_module_eq in Hm.
    destruct (Stack.name module) as [name|]; cbv zeta in Hm.
    + destruct (config_block _ _) as [block|e1].
      * destruct (entry_params _ _ block create) as [[block' c]|e2];
          inversion Hm; subst; exact Hf.
      * inversion Hm; subst; exact Hf.
    + inversion Hm; subst; exact Hf.
Qed.

(** X17.  Writing the modules again changes no file: after a second
    completed [process_stack_modules] on the same instance every path
    holds what it held after the first. *)
Theorem process_stack_modules_again self st st1 :
  process_stack_modules self st = (Ok tt, st1) ->
  exists st2,
    process_stack_modules self st1 = (Ok tt, st2) /\
    forall path,
      file_content path (files st2) = file_content path (files st1).
Proof.
  rewrite (process_stack_modules_frame self st).
  rewrite (process_stack_modules_frame self st1).
  destruct (process_stack_modules self (fresh [])) as [[[]|e] d]; simpl;
    [|discriminate].
  intros H. inversion H; subst. clear H.
  eexists. split; [reflexivity|]. intros path. simpl.
  rewrite !file_content_app.
  now destruct (file_content path (files d)).
Qed.

(** ** The variables artifact *)

Lemma environments_loop_total envs user_input :
  exists defaults, environments_loop envs user_input = Ok defaults.
Proof.
  induction envs as [|env envs IH]; simpl.
  - now eexists.
  - destruct (_is_env_match (Env.name env)); [|exact IH].
    destruct (Env.variables env) as [variables|]; [|now eexists].
    destruct (variables_loop_spec variables (keys variables) user_input)
      as (ds & Hl & _); [auto|].
    rewrite Hl. now eexists.
Qed.



(** X12.  When no environment matches, or the stack configuration has no
    environments, there are no environment defaults. *)
Theorem no_environment_matches self :
  (forall envs env,
      environments (stack_config self) = Some envs ->
      In env envs -> _is_env_match (Env.name env) = false) ->
  _default_config_input self = Ok [].
Proof.
  unfold _default_config_input. intros H.
  destruct (environments (stack_config self)) as [envs|]; [|reflexivity].
  specialize (H envs). induction envs as [|env envs IH]; simpl; [reflexivity|].
  rewrite (H env eq_refl) by now left.
  apply IH. intros env' _ Hin. apply H; [reflexivity | now right].
Qed.

(** ** The cluster among the modules *)

Lemma eks_modules_spec modules :
  forallb has_type modules = true ->
  eks_modules modules = Ok (filter is_eks modules).
Proof.
  unfold has_type, is_eks.
  induction modules as [|m modules IH]; simpl; intros H; [reflexivity|].
  apply andb_prop in H. destruct H as [Hm Hrest].
  destruct (dict_lookup "type" m) as [type|]; [|discriminate].
  simpl. rewrite (IH Hrest). simpl.
  now destruct (negb (ne_str type "eks")).
Qed.

Lemma eks_modules_raises pre _module post :
  forallb has_type pre = true ->
  has_type _module = false ->
  eks_modules (pre ++ _module :: post) = Raise (KeyError "type").
Proof.
  unfold has_type. intros Hpre Hm.
  induction pre as [|m pre IH]; simpl in *.
  - destruct (dict_lookup "type" _module); [discriminate | reflexivity].
  - apply andb_prop in Hpre. destruct Hpre as [Hm' Hpre].
    destruct (dict_lookup "type" m) as [type|]; [|discriminate].
    simpl. now rewrite (IH Hpre).
Qed.

(** X13.  When every module has a [type], [_get_k8s_module_name] answers
    from the first module whose type is "eks", whatever modules of that
    type come later: it returns what that module binds the key to, and
    raises KeyError with the key as its argument if the module lacks it. *)
Theorem first_eks_module_named self return_key pre _module post :
  modules self = Some (pre ++ _module :: post) ->
  forallb has_type (pre ++ _module :: post) = true ->
  (forall earlier, In earlier pre -> is_eks earlier = false) ->
  dict_lookup "type" _module = Some (PStr "eks") ->
  _get_k8s_module_name self return_key =
  match dict_lookup return_key _module with
  | Some v => Ok v
  | None => Raise (KeyError return_key)
  end.
Proof.
  intros Hmodules Htypes Hpre Heks.
  unfold _get_k8s_module_name. rewrite Hmodules. simpl.
  rewrite (eks_modules_spec _ Htypes). simpl.
  rewrite filter_app.
  assert (Hnone : filter is_eks pre = []).
  { clear Hmodules Htypes. induction pre as [|m pre IH]; simpl; [reflexivity|].
    rewrite (Hpre m) by now left. apply IH.
    intros m' Hm'. apply Hpre. now right. }
  rewrite Hnone. simpl. unfold is_eks at 1. rewrite Heks. simpl.
  reflexivity.
Qed.

(** X14.  When every module has a [type] and none has the type "eks",
    [_get_k8s_module_name] returns [None] without looking the key up. *)
Theorem no_eks_module self return_key ms :
  modules self = Some ms ->
  forallb has_type ms = true ->
  (forall _module, In _module ms -> is_eks _module = false) ->
  _get_k8s_module_name self return_key = Ok PNone.
Proof.
  intros Hmodules Htypes Hnone.
  unfold _get_k8s_module_name. rewrite Hmodules. simpl.
  rewrite (eks_modules_spec _ Htypes). simpl.
  assert (E : filter is_eks ms = []).
  { clear Hmodules Htypes. induction ms as [|m ms IH]; simpl; [reflexivity|].
    rewrite (Hnone m) by now left. apply IH.
    intros m' Hm'. apply Hnone. now right. }
  now rewrite E.
Qed.

(** X15.  A module without a [type] makes [_get_k8s_module_name] raise
    KeyError with the argument "type", also when a module of the type
    "eks" comes before it: all modules are looked at before the first is
    picked. *)
Theorem module_without_type self return_key pre _module post :
  modules self = Some (pre ++ _module :: post) ->
  forallb has_type pre = true ->
  dict_lookup "type" _module = None ->
  _get_k8s_module_name self return_key = Raise (KeyError "type").
Proof.
  intros Hmodules Hpre Hm.
  unfold _get_k8s_module_name. rewrite Hmodules. simpl.
  rewrite (eks_modules_raises pre _module post Hpre); [reflexivity|].
  unfold has_type. now rewrite Hm.
Qed.

End KubernetesStack.

(** * The database stack, worked through *)

Module Runs.

Import Example.
Local Open Scope list_scope.

Local Abbreviation run_modules self :=
  (process_stack_modules tf_path subnet_keys read repr self (fresh [])).
Local Abbreviation run_module module :=
  (process_module tf_path subnet_keys read repr module false (fresh [])).

(** [vpc_module_injected] on [tracked]: the database asks for remote
    tracking, a declared user-facing input, and the vpc module gets
    database subnets. *)
Lemma vpc_module_injected_witness :
  run_modules tracked = (Ok tt, snd (run_modules tracked)) /\
  exists ws,
    Forall2 (stack_write tf_path) (stacks tracked) ws /\
    writes_to (vpc_path tf_path) ws = 0 /\
    (provider tracked = Member AWS ->
     let vpc :=
       PDict [("module",
               PDict [("vpc",
                       PDict [("source", PStr "../modules/cloud/aws/vpc");
                              ("create_database_subnets",
                               PBool (existsb
                                        (stack_requests_subnets subnet_keys read)
                                        (stacks tracked)))])])] in
     files (snd (run_modules tracked)) =
     files (fresh []) ++ ws ++ [(vpc_path tf_path, vpc)] /\
     writes_to (vpc_path tf_path) (ws ++ [(vpc_path tf_path, vpc)]) = 1) /\
    (provider tracked <> Member AWS ->
     files (snd (run_modules tracked)) = files (fresh []) ++ ws).
Proof.
  split; [reflexivity|].
  apply (vpc_module_injected tf_path subnet_keys read repr tracked (fresh [])).
  reflexivity.
Defined.

(** The statement of C1 fails on [undeclared]: the cache supplies the
    subnet-triggering key [remote_tracking] with the value [True], the
    run succeeds, and the vpc module it writes has
    [create_database_subnets] false. *)
Lemma vpc_flag_not_iff_supplied :
  fst (run_modules undeclared) = Ok tt /\
  provider undeclared = Member AWS /\
  ~ (vpc_flag tf_path (files (snd (run_modules undeclared))) = Some (PBool true)
     <-> existsb (supplies_trigger_as_specified subnet_keys) (stacks undeclared) = true).
Proof.
  split; [reflexivity|]. split; [reflexivity|].
  intros [_ H]. specialize (H eq_refl). vm_compute in H. discriminate H.
Qed.

(** [missing_name_aborts] when an entry without a name follows the
    database. *)
Lemma missing_name_aborts_witness :
  let first := database (Some [("storage_gb", PInt 50)]) in
  let nameless := Stack.mk "cache" None None in
  let self := instance (Member AWS) [first; nameless; first] in
  let st1 := snd (run_module first) in
  (Stack.name nameless = None /\
   stacks_loop tf_path subnet_keys read repr [first] false (fresh [])
   = (Ok false, st1)) /\
  run_modules self =
    (Raise (KeyError "No application assigned to the stack: cache"), st1) /\
  exists ws,
    files st1 = files (fresh []) ++ ws /\
    Forall2 (stack_write tf_path) [first] ws.
Proof.
  intros first nameless self st1. split; [split; reflexivity|].
  apply (missing_name_aborts tf_path subnet_keys read repr self (fresh [])
           [first] nameless [first] false st1); reflexivity.
Defined.

(** [output_artifact] on [tracked]. *)
Lemma output_artifact_witness :
  let run := generate tf_path subnet_keys read repr tracked (fresh []) in
  run = (Ok tt, snd run) /\
  (forall name o,
      output_reference name o =
      PDict [(Output.name o,
              PDict [("value",
                      PStr ("${ module." ++ name ++ "." ++ Output.name o
                            ++ " }")%string)])]) /\
  exists ws,
    files (snd run) =
    [] ++ ws ++
    [(output_path tf_path,
      PDict [("output",
              PList (flat_map (stack_exports read) (stacks tracked) ++
                     [PDict [("state_storage",
                              PDict [("value", PStr (state_file_name tracked))])];
                      PDict [("providers",
                              PDict [("value",
                                      PDict [("aws",
                                              PDict [("region",
                                                      PStr (region tracked));
                                                     ("account_id",
                                                      PStr (account_id tracked))])])])]]))])].
Proof.
  intros run. split; [reflexivity|].
  apply (output_artifact tf_path subnet_keys read repr tracked []).
  reflexivity.
Defined.

(** [internal_input_resolved] for the input [vpc_id] of [pg], whose
    default is "None". *)
Lemma internal_input_resolved_witness :
  let module := database (Some [("storage_gb", PInt 50)]) in
  let st' := snd (run_module module) in
  (Config.inputs pg = Some ([storage_gb; remote_tracking] ++ vpc_id :: [engine]) /\
   truthy (Input.user_facing vpc_id) = false /\
   run_module module = (Ok false, st')) /\
  exists block,
    files st' =
    files (fresh []) ++
    [("./.platinfra/stack_database.tf.json",
      PDict [("module", PDict [("pg", PDict block)])])] /\
    (Input.default vpc_id = Some (PStr "None") ->
     exists value,
       Input.value vpc_id = Some value /\
       dict_lookup "vpc_id" block =
       Some (PStr ("${ "
                   ++ match value with
                      | PStr s => s
                      | PNone => "None"
                      | PBool true => "True"
                      | PBool false => "False"
                      | PInt z => NilZero.string_of_int (Z.to_int z)
                      | other => repr other
                      end
                   ++ " }")%string) /\
       dict_lookup "vpc_id" block <> Some (PStr "None")) /\
    (forall default,
        Input.default vpc_id = Some default ->
        default <> PStr "None" ->
        dict_lookup "vpc_id" block = Some default).
Proof.
  intros module st'. split; [repeat split|].
  apply (internal_input_resolved tf_path subnet_keys read repr module false
           (fresh []) false st' "pg" pg [storage_gb; remote_tracking] vpc_id
           [engine]); try reflexivity.
  intros later [<- | []] _. discriminate.
Defined.

(** [internal_param_rejected] when the params set [engine], an internal
    input of [pg]. *)
Lemma internal_param_rejected_witness :
  let items1 := [("storage_gb", PInt 50)] in
  let module := database (Some (items1 ++ [("engine", PStr "mysql")])) in
  (forallb (resolvable repr) [storage_gb; remote_tracking; vpc_id; engine]
   = true /\
   names_internal [storage_gb; remote_tracking; vpc_id; engine] "engine"
   = true) /\
  exists k,
    In k (keys (items1 ++ [("engine", PStr "mysql")])) /\
    names_internal [storage_gb; remote_tracking; vpc_id; engine] k = true /\
    fst (run_module module) =
      Raise (KeyError (k ++ " is not a user facing parameter")%string) /\
    files (snd (run_module module)) = files (fresh []) /\
    ((forall kv, In kv items1 ->
                 names_internal [storage_gb; remote_tracking; vpc_id; engine]
                   (fst kv) = false) ->
     k = "engine").
Proof.
  intros items1 module. split; [split; reflexivity|].
  apply (internal_param_rejected tf_path subnet_keys read repr module false
           (fresh []) "pg" pg [storage_gb; remote_tracking; vpc_id; engine]
           items1 "engine" (PStr "mysql") []); reflexivity.
Defined.

(** [unknown_param_dropped] when the params set [colour], which [pg]
    does not declare. *)
Lemma unknown_param_dropped_witness :
  let items1 := [("storage_gb", PInt 50)] in
  let ins := [storage_gb; remote_tracking; vpc_id; engine] in
  let module := database (Some (items1 ++ [("colour", PStr "red")])) in
  names_input ins "colour" = false /\
  (run_module module =
   process_module tf_path subnet_keys read repr
     (Stack.mk "database" (Some "pg") (Some (items1 ++ []))) false (fresh []) /\
   (forallb (resolvable repr) ins = true ->
    (forall kv, In kv (items1 ++ []) -> names_internal ins (fst kv) = false) ->
    exists create' st', run_module module = (Ok create', st')) /\
   (forall create' st',
       run_module module = (Ok create', st') ->
       exists block,
         files st' =
         files (fresh []) ++
         [("./.platinfra/stack_database.tf.json",
           PDict [("module", PDict [("pg", PDict block)])])] /\
         dict_lookup "colour" block =
         if String.eqb "colour" "source"
         then Some (PStr "../modules/applications/database/pg/tf_module")
         else None)).
Proof.
  intros items1 ins module. split; [reflexivity|].
  apply (unknown_param_dropped tf_path subnet_keys read repr module false
           (fresh []) "pg" pg ins items1 "colour" (PStr "red") []);
    reflexivity.
Defined.

(** [user_facing_param_passed] for the param [storage_gb]. *)
Lemma user_facing_param_passed_witness :
  let items := [("storage_gb", PInt 50)] in
  let ins := [storage_gb; remote_tracking; vpc_id; engine] in
  let st' := snd (run_module (database (Some items))) in
  (NoDup (keys items) /\
   names_user_facing ins "storage_gb" = true /\
   run_module (database (Some items)) = (Ok false, st')) /\
  exists block,
    files st' =
    files (fresh []) ++
    [("./.platinfra/stack_database.tf.json",
      PDict [("module", PDict [("pg", PDict block)])])] /\
    dict_lookup "storage_gb" block = Some (PInt 50).
Proof.
  intros items ins st'.
  assert (Hnd : NoDup (keys items)).
  { constructor; [simpl; tauto | constructor]. }
  split; [split; [exact Hnd | split; reflexivity]|].
  apply (user_facing_param_passed tf_path subnet_keys read repr
           (database (Some items)) false (fresh []) false st' "pg" pg ins
           items "storage_gb" (PInt 50)); try reflexivity.
  - exact Hnd.
  - now left.
Defined.

(** C6 fails on [unconfigured]: the entry has a param and no
    configuration, and what is raised is the TypeError of subscripting
    [None], not a KeyError. *)
Theorem params_without_config_raise_TypeError :
  read (Stack.stack_type unconfigured) "k8s" = None /\
  run_module unconfigured =
  (Raise (TypeError "'NoneType' object is not subscriptable"), fresh []).
Proof.
  split; reflexivity.
Qed.

(** [first_matching_environment] on [two_dev]: the second [dev] adds
    nothing. *)
Lemma first_matching_environment_witness :
  let pre := [Env.mk "prod" (Some [("size", PStr "large")])] in
  let env := Env.mk "dev" (Some [("size", PStr "small");
                                 ("replicas", PInt 1)]) in
  let post := [Env.mk "dev" (Some [("size", PStr "medium")])] in
  (environments (stack_config two_dev) = Some (pre ++ env :: post) /\
   is_dev (Env.name env) = true) /\
  _default_config_input is_dev two_dev =
  Ok [PDict [("size", PList [PDict [("type", PStr "string");
                                    ("default", PStr "small")]])];
      PDict [("replicas", PList [PDict [("type", PStr "string");
                                        ("default", PInt 1)]])]].
Proof.
  intros pre env post. split; [split; reflexivity|].
  apply (first_matching_environment is_dev two_dev pre env post).
  - reflexivity.
  - intros e [<- | []]. reflexivity.
  - reflexivity.
  - intros variables H. inversion H; subst.
    constructor; [simpl; intros [H1 | []]; discriminate H1|].
    constructor; [simpl; tauto | constructor].
Defined.

(** [same_stack_type_overwrites] on [crowded]: the file of the stack type
    [database] ends up with the descriptor of [replica]. *)
Lemma same_stack_type_overwrites_witness :
  let pre := [database (Some [("storage_gb", PInt 50)]);
              Stack.mk "cache" (Some "redis") None] in
  let st' := snd (run_modules crowded) in
  (stacks crowded = pre ++ replica :: [] /\
   run_modules crowded = (Ok tt, st')) /\
  exists asked descriptor,
    run_module replica =
      (Ok asked,
       mkState (stack_exports read replica)
         [(stack_path tf_path (Stack.stack_type replica), descriptor)]) /\
    file_content (stack_path tf_path (Stack.stack_type replica)) (files st')
    = Some descriptor.
Proof.
  intros pre st'. split; [split; reflexivity|].
  apply (same_stack_type_overwrites tf_path subnet_keys read repr crowded
           (fresh []) st' pre replica []); try reflexivity.
  intros later [].
Defined.

(** [unresolvable_input_aborts] for the input [subnet] of [broken]. *)
Lemma unresolvable_input_aborts_witness :
  let subnet := Input.mk "subnet" (PBool false) None None in
  let module := Stack.mk "database" (Some "broken") None in
  (Config.inputs broken = Some ([storage_gb] ++ subnet :: []) /\
   Input.default subnet = None) /\
  process_module tf_path subnet_keys read_more repr module false (fresh []) =
  (Raise (KeyError match Input.default subnet with
                   | None => "default"
                   | Some _ => "value"
                   end), fresh []).
Proof.
  intros subnet module. split; [split; reflexivity|].
  apply (unresolvable_input_aborts tf_path subnet_keys read_more repr module
           false (fresh []) "broken" broken [storage_gb] subnet []);
    try reflexivity.
  now left.
Defined.

(** [params_without_inputs] for an entry of [exporter]. *)
Lemma params_without_inputs_witness :
  let module := Stack.mk "queue" (Some "exporter") (Some [("size", PInt 1)]) in
  Config.inputs exporter = None /\
  process_module tf_path subnet_keys read_more repr module false (fresh []) =
  (Raise (KeyError "inputs"),
   mkState (output (fresh []) ++ stack_exports read_more module)
     (files (fresh []))).
Proof.
  intros module. split; [reflexivity|].
  apply (params_without_inputs tf_path subnet_keys read_more repr module false
           (fresh []) "exporter" exporter ("size", PInt 1) []); reflexivity.
Defined.

(** [rejected_entry_keeps_exports] when the params set [engine]. *)
Lemma rejected_entry_keeps_exports_witness :
  let ins := [storage_gb; remote_tracking; vpc_id; engine] in
  let module := database (Some [("engine", PStr "mysql")]) in
  names_internal ins "engine" = true /\
  snd (run_module module) =
  mkState (output (fresh []) ++ stack_exports read module) (files (fresh [])).
Proof.
  intros ins module. split; [reflexivity|].
  apply (rejected_entry_keeps_exports tf_path subnet_keys read repr module
           false (fresh []) "pg" pg ins [("engine", PStr "mysql")] "engine"
           (PStr "mysql")); try reflexivity.
  now left.
Defined.

(** [entry_without_config] for [replica]. *)
Lemma entry_without_config_witness :
  read (Stack.stack_type replica) "replica" = None /\
  run_module replica =
  match Stack.params replica with
  | Some (_ :: _) =>
      (Raise (TypeError "'NoneType' object is not subscriptable"), fresh [])
  | _ =>
      (Ok false,
       mkState (output (fresh []))
         (files (fresh []) ++
          [(stack_path tf_path (Stack.stack_type replica),
            PDict [("module",
                    PDict [("replica",
                            PDict [("source",
                                    PStr (module_source
                                            (Stack.stack_type replica)
                                            "replica"))])])])]))
  end.
Proof.
  split; [reflexivity|].
  apply (entry_without_config tf_path subnet_keys read repr replica false
           (fresh []) "replica"); reflexivity.
Defined.

(** [descriptor_keys] for the database with the param [storage_gb]. *)
Lemma descriptor_keys_witness :
  let ins := [storage_gb; remote_tracking; vpc_id; engine] in
  let module := database (Some [("storage_gb", PInt 50)]) in
  let st' := snd (run_module module) in
  run_module module = (Ok false, st') /\
  exists block,
    files st' = files (fresh []) ++ [(stack_path tf_path "database",
                                      json_module "pg" block)] /\
    forall k,
      In k (keys block) ->
      k = "source"%string \/
      names_internal ins k = true \/
      (exists items, Stack.params module = Some items /\
                     In k (keys items) /\ names_user_facing ins k = true).
Proof.
  intros ins module st'. split; [reflexivity|].
  apply (descriptor_keys tf_path subnet_keys read repr module false (fresh [])
           false st' "pg" pg ins); reflexivity.
Defined.

(** [source_attribute] for the same entry. *)
Lemma source_attribute_witness :
  let ins := [storage_gb; remote_tracking; vpc_id; engine] in
  let module := database (Some [("storage_gb", PInt 50)]) in
  let st' := snd (run_module module) in
  (names_input ins "source" = false /\ run_module module = (Ok false, st')) /\
  exists block,
    files st' =
    files (fresh []) ++
    [("./.platinfra/stack_database.tf.json",
      PDict [("module", PDict [("pg", PDict block)])])] /\
    dict_lookup "source" block =
    Some (PStr ("../modules/applications/" ++ "database" ++ "/"
                ++ "pg" ++ "/tf_module")%string).
Proof.
  intros ins module st'. split; [split; reflexivity|].
  apply (source_attribute tf_path subnet_keys read repr module false (fresh [])
           false st' "pg" pg ins); reflexivity.
Defined.

(** [generate_writes] on [tracked]. *)
Lemma generate_writes_witness :
  let run := generate tf_path subnet_keys read repr tracked (fresh []) in
  run = (Ok tt, snd run) /\
  exists ws,
    files (snd run) = files (fresh []) ++ ws /\
    List.length ws =
    List.length (stacks tracked)
    + match provider tracked with Member AWS => 1 | _ => 0 end + 1 /\
    writes_to (variable_path tf_path) ws = 0.
Proof.
  intros run. split; [reflexivity|].
  apply (generate_writes tf_path subnet_keys read repr tracked (fresh [])).
  reflexivity.
Defined.

(** [generate_again] on [tracked]. *)
Lemma generate_again_witness :
  let st1 := snd (generate tf_path subnet_keys read repr tracked (fresh [])) in
  generate tf_path subnet_keys read repr tracked (fresh []) = (Ok tt, st1) /\
  exists st2 ws,
    generate tf_path subnet_keys read repr tracked st1 = (Ok tt, st2) /\
    file_content (output_path tf_path) (files st1) =
      Some (PDict [("output", PList (output_entries read tracked))]) /\
    files st2 =
    files st1 ++ ws ++
    [(output_path tf_path,
      PDict [("output",
              PList (output_entries read tracked
                     ++ output_entries read tracked))])].
Proof.
  intros st1. split; [reflexivity|].
  apply (generate_again tf_path subnet_keys read repr tracked []).
  reflexivity.
Defined.

(** [no_environment_matches] on [two_dev] when the environment is
    [staging]. *)
Lemma no_environment_matches_witness :
  let is_staging := fun name => String.eqb name "staging" in
  (forall envs env,
      environments (stack_config two_dev) = Some envs ->
      In env envs -> is_staging (Env.name env) = false) /\
  _default_config_input is_staging two_dev = Ok [].
Proof.
  intros is_staging.
  assert (H : forall envs env,
             environments (stack_config two_dev) = Some envs ->
             In env envs -> is_staging (Env.name env) = false).
  { intros envs env Henvs Hin. inversion Henvs; subst.
    destruct Hin as [<- | [<- | [<- | []]]]; reflexivity. }
  split; [exact H|].
  apply (no_environment_matches is_staging two_dev H).
Defined.

(** [first_eks_module_named] on [component]: the cluster is [blue]. *)
Lemma first_eks_module_named_witness :
  let pre := [[("type", PStr "rds"); ("cluster_name", PStr "db")]] in
  let blue := [("type", PStr "eks"); ("cluster_name", PStr "blue")] in
  let post := [[("type", PStr "eks"); ("cluster_name", PStr "green")]] in
  (modules component = Some (pre ++ blue :: post) /\
   forallb has_type (pre ++ blue :: post) = true /\
   dict_lookup "type" blue = Some (PStr "eks")) /\
  _get_k8s_module_name component "cluster_name" =
  match dict_lookup "cluster_name" blue with
  | Some v => Ok v
  | None => Raise (KeyError "cluster_name")
  end.
Proof.
  intros pre blue post. split; [repeat split|].
  apply (first_eks_module_named component "cluster_name" pre blue post);
    try reflexivity.
  intros earlier [<- | []]. reflexivity.
Defined.

(** [no_eks_module] when the only module is a database. *)
Lemma no_eks_module_witness :
  let ms := [[("type", PStr "rds"); ("cluster_name", PStr "db")]] in
  let self := mkComponent two_dev false None (Some ms) in
  forallb has_type ms = true /\
  _get_k8s_module_name self "cluster_name" = Ok PNone.
Proof.
  intros ms self. split; [reflexivity|].
  apply (no_eks_module self "cluster_name" ms); try reflexivity.
  intros _module [<- | []]. reflexivity.
Defined.

(** [module_without_type] when a module without a type follows the
    cluster. *)
Lemma module_without_type_witness :
  let blue := [("type", PStr "eks"); ("cluster_name", PStr "blue")] in
  let untyped := [("cluster_name", PStr "grey")] in
  let self := mkComponent two_dev false None (Some ([blue] ++ untyped :: [])) in
  dict_lookup "type" untyped = None /\
  _get_k8s_module_name self "cluster_name" = Raise (KeyError "type").
Proof.
  intros blue untyped self. split; [reflexivity|].
  apply (module_without_type self "cluster_name" [blue] untyped []);
    reflexivity.
Defined.

(** [first_failure_aborts] when the second of three entries is rejected
    for its param [engine]. *)
Lemma first_failure_aborts_witness :
  let first := database (Some [("storage_gb", PInt 50)]) in
  let second := database (Some [("engine", PStr "mysql")]) in
  let self := instance (Member AWS) [first; second; replica] in
  let st1 := snd (run_module first) in
  let st2 := snd (process_module tf_path subnet_keys read repr second false st1) in
  let e := KeyError "engine is not a user facing parameter" in
  (stacks_loop tf_path subnet_keys read repr [first] false (fresh [])
   = (Ok false, st1) /\
   process_module tf_path subnet_keys read repr second false st1
   = (Raise e, st2)) /\
  generate tf_path subnet_keys read repr self (fresh []) = (Raise e, st2) /\
  exists ws,
    files st2 = files (fresh []) ++ ws /\
    Forall2 (stack_write tf_path) [first] ws.
Proof.
  intros first second self st1 st2 e. split; [split; reflexivity|].
  apply (first_failure_aborts tf_path subnet_keys read repr self (fresh [])
           [first] second [replica] false st1 e st2); reflexivity.
Defined.

(** [process_stack_modules_again] on [crowded]. *)
Lemma process_stack_modules_again_witness :
  let st1 := snd (run_modules crowded) in
  run_modules crowded = (Ok tt, st1) /\
  exists st2,
    process_stack_modules tf_path subnet_keys read repr crowded st1
    = (Ok tt, st2) /\
    forall path,
      file_content path (files st2) = file_content path (files st1).
Proof.
  intros st1. split; [reflexivity|].
  apply (process_stack_modules_again tf_path subnet_keys read repr crowded
           (fresh []) st1).
  reflexivity.
Defined.


(** The statement of C2 fails on an entry of [twice]: the first [vpc_id]
    is not user facing and has the default "None", the entry is processed
    to its end, and the mapping it writes binds [vpc_id] to the default of
    the second, not to the interpolation of the value of the first. *)
Lemma interpolation_overridden :
  let module := Stack.mk "network" (Some "twice") None in
  Config.inputs twice
  = Some [vpc_id;
          Input.mk "vpc_id" (PBool false) (Some (PStr "10.0.0.0/16")) None] /\
  truthy (Input.user_facing vpc_id) = false /\
  Input.default vpc_id = Some (PStr "None") /\
  Input.value vpc_id = Some (PStr "module.vpc.vpc_id") /\
  exists block,
    process_module tf_path subnet_keys read_twice repr module false (fresh [])
    = (Ok false,
       mkState []
         [("./.platinfra/stack_network.tf.json",
           PDict [("module", PDict [("twice", PDict block)])])]) /\
    dict_lookup "vpc_id" block = Some (PStr "10.0.0.0/16") /\
    dict_lookup "vpc_id" block <> Some (PStr "${ module.vpc.vpc_id }").
Proof.
  intros module. repeat (split; [reflexivity|]).
  exists [("source", PStr "../modules/applications/network/twice/tf_module");
          ("vpc_id", PStr "10.0.0.0/16")].
  split; [reflexivity|]. split; [reflexivity|].
  simpl. discriminate.
Qed.

(** C5 fails on an entry of [exporter]: the configuration has no inputs,
    so that the param [size] names none, and instead of being dropped the
    param makes the entry raise KeyError with the argument "inputs", with
    no file written. *)
Theorem unknown_param_without_inputs_raises :
  let module := Stack.mk "queue" (Some "exporter") (Some [("size", PInt 1)]) in
  read_more "queue" "exporter" = Some exporter /\
  Config.inputs exporter = None /\
  process_module tf_path subnet_keys read_more repr module false (fresh []) =
  (Raise (KeyError "inputs"),
   mkState [PDict [("arn", PDict [("value", PStr "${ module.exporter.arn }")])]]
     []).
Proof.
  intros module. repeat split.
Qed.

End Runs.
